(** * dm-helper: abilities, inventory and character, verified against the Go code

    A shallow embedding of the packages [abilities], [condition], [inventory]
    and [character] of the repository.  Go's [int] is modelled as a [Z] kept
    in the signed 64-bit range by an explicit [wrap]; methods with a pointer
    receiver become functions that return the receiver's new value next to
    their result; a Go [error] is a value of the type [error] below, one
    constructor per [fmt.Errorf] call site of the code, and [None] is [nil]. *)

From Stdlib Require Import ZArith String Lia Bool.
From stdpp Require Import base tactics option list strings numbers gmap.

Local Open Scope Z_scope.

(** ** Go's [int] (64 bits, two's complement, silent wrap-around) *)

Module goint.

Definition int_min : Z := -9223372036854775808.
Definition int_max : Z := 9223372036854775807.

(** The representative of [z] modulo [2^64] in the signed range. *)
Definition wrap (z : Z) : Z := (z - int_min) mod 2 ^ 64 + int_min.

Definition add (x y : Z) : Z := wrap (x + y).
Definition sub (x y : Z) : Z := wrap (x - y).
Definition mul (x y : Z) : Z := wrap (x * y).
(** Unary minus: [-x]. *)
Definition neg (x : Z) : Z := wrap (- x).

(** The values an [int] variable can hold. *)
Definition is_int (z : Z) : Prop := int_min ≤ z ≤ int_max.

Arguments wrap : simpl never.
Arguments add : simpl never.
Arguments sub : simpl never.
Arguments mul : simpl never.
Arguments neg : simpl never.

End goint.

(** ** Errors: one constructor per [fmt.Errorf] of the code *)

Inductive error : Type :=
  (* "ability %s value %d must be in range [%d, %d]" *)
  | ErrAbilityRange (name : string) (value : Z)
  (* "total ability points (%d) must equal %d (...)" *)
  | ErrTotalPoints (total expected : Z)
  (* "cannot decrease %s below minimum (%d)" *)
  | ErrDecreaseBelowMin (name : string)
  (* "cannot increase %s above maximum (%d)" *)
  | ErrIncreaseAboveMax (name : string)
  (* "cannot set %s below minimum (%d)" *)
  | ErrSetBelowMin (name : string)
  (* "cannot set %s above maximum (%d)" *)
  | ErrSetAboveMax (name : string)
  (* "insufficient points in pool: need %d, have %d" *)
  | ErrInsufficientPoints (need have : Z)
  (* "unknown ability: %s" *)
  | ErrUnknownAbility (name : string)
  (* "item quantity cannot be negative or zero" *)
  | ErrItemQuantity
  (* "item ability %s value %d must be 0 or in range [%d, %d]" *)
  | ErrItemAbilityRange (name : string) (value : Z)
  (* "insufficient quantity: have %d, need %d" *)
  | ErrInsufficientQuantity (have need : Z)
  (* "item %s not found in inventory" *)
  | ErrItemNotFound (name : string)
  (* "Character validation failed: name, race, or class cannot be empty" *)
  | ErrCharacterEmptyField.

(** ** Package abilities *)

Module abilities.

Definition MinAbilityValue : Z := 1.
Definition MaxAbilityValue : Z := 10.
Definition DefaultAbilityValue : Z := 5.
Definition AbilityPointBudget : Z := 5.

Record Abilities : Type := mkAbilities {
  pointsPool : Z;
  strength : Z;
  luck : Z;
  charisma : Z;
  agility : Z;
  perception : Z;
  intelligence : Z
}.

(** [Abilities{}], the zero value returned next to an error. *)
Definition zero : Abilities := mkAbilities 0 0 0 0 0 0 0.

Definition NewDefaultAbilities : Abilities :=
  {| pointsPool := AbilityPointBudget;
     strength := DefaultAbilityValue;
     luck := DefaultAbilityValue;
     charisma := DefaultAbilityValue;
     agility := DefaultAbilityValue;
     perception := DefaultAbilityValue;
     intelligence := DefaultAbilityValue |}.

(** The range loop shared by [NewAbilities] and [ValidateAbilities]: the
    first entry outside [MinAbilityValue, MaxAbilityValue] is reported. *)
Fixpoint first_out_of_range (entries : list (string * Z)) : option error :=
  match entries with
  | [] => None
  | (name, value) :: rest =>
      if (value <? MinAbilityValue) || (value >? MaxAbilityValue)
      then Some (ErrAbilityRange name value)
      else first_out_of_range rest
  end.

Definition named_values (s l c a p i : Z) : list (string * Z) :=
  [("strength"%string, s); ("luck"%string, l); ("charisma"%string, c);
   ("agility"%string, a); ("perception"%string, p);
   ("intelligence"%string, i)].

Definition NewAbilities (strength luck charisma agility perception intelligence : Z)
  : Abilities * option error :=
  match first_out_of_range
          (named_values strength luck charisma agility perception intelligence) with
  | Some e => (zero, Some e)
  | None =>
      let totalAbilitySum :=
        goint.add (goint.add (goint.add (goint.add (goint.add
          strength luck) charisma) agility) perception) intelligence in
      let expectedSum :=
        goint.add (goint.mul 6 DefaultAbilityValue) AbilityPointBudget in
      if negb (totalAbilitySum =? expectedSum)
      then (zero, Some (ErrTotalPoints totalAbilitySum expectedSum))
      else
        let pointsSpent :=
          goint.add (goint.add (goint.add (goint.add (goint.add
            (goint.sub strength DefaultAbilityValue)
            (goint.sub luck DefaultAbilityValue))
            (goint.sub charisma DefaultAbilityValue))
            (goint.sub agility DefaultAbilityValue))
            (goint.sub perception DefaultAbilityValue))
            (goint.sub intelligence DefaultAbilityValue) in
        let remainingPoints := goint.sub AbilityPointBudget pointsSpent in
        (mkAbilities remainingPoints strength luck charisma agility
                     perception intelligence, None)
  end.

(** The closure [getCurrentValue] of [AddToAbility] and [SetAbility]. *)
Definition getCurrentValue (a : Abilities) (abilityName : string) : Z :=
  if String.eqb abilityName "strength" then strength a
  else if String.eqb abilityName "luck" then luck a
  else if String.eqb abilityName "charisma" then charisma a
  else if String.eqb abilityName "agility" then agility a
  else if String.eqb abilityName "perception" then perception a
  else if String.eqb abilityName "intelligence" then intelligence a
  else 0.

(** The assignment switch of both methods; [None] is its [default] branch,
    which returns the unknown-ability error. *)
Definition assign (a : Abilities) (abilityName : string) (v : Z)
  : option Abilities :=
  let '(mkAbilities pool s l c g p i) := a in
  if String.eqb abilityName "strength" then Some (mkAbilities pool v l c g p i)
  else if String.eqb abilityName "luck" then Some (mkAbilities pool s v c g p i)
  else if String.eqb abilityName "charisma" then Some (mkAbilities pool s l v g p i)
  else if String.eqb abilityName "agility" then Some (mkAbilities pool s l c v p i)
  else if String.eqb abilityName "perception" then Some (mkAbilities pool s l c g v i)
  else if String.eqb abilityName "intelligence" then Some (mkAbilities pool s l c g p v)
  else None.

Definition debit (a : Abilities) (pointDelta : Z) : Abilities :=
  let '(mkAbilities pool s l c g p i) := a in
  mkAbilities (goint.sub pool pointDelta) s l c g p i.

(** [func (a *Abilities) AddToAbility(abilityName string, value int) error]:
    the receiver after the call, and the error. *)
Definition AddToAbility (a : Abilities) (abilityName : string) (value : Z)
  : Abilities * option error :=
  let currentValue := getCurrentValue a abilityName in
  let newValue := goint.add currentValue value in
  if newValue <? MinAbilityValue then (a, Some (ErrDecreaseBelowMin abilityName))
  else if newValue >? MaxAbilityValue then (a, Some (ErrIncreaseAboveMax abilityName))
  else
    let currentCost := goint.sub currentValue DefaultAbilityValue in
    let newCost := goint.sub newValue DefaultAbilityValue in
    let pointDelta := goint.sub newCost currentCost in
    if (pointDelta >? 0) && (pointsPool a <? pointDelta)
    then (a, Some (ErrInsufficientPoints pointDelta (pointsPool a)))
    else
      match assign a abilityName newValue with
      | None => (a, Some (ErrUnknownAbility abilityName))
      | Some a' => (debit a' pointDelta, None)
      end.

(** [func (a *Abilities) SetAbility(abilityName string, value int) error]. *)
Definition SetAbility (a : Abilities) (abilityName : string) (value : Z)
  : Abilities * option error :=
  if value <? MinAbilityValue then (a, Some (ErrSetBelowMin abilityName))
  else if value >? MaxAbilityValue then (a, Some (ErrSetAboveMax abilityName))
  else
    let currentValue := getCurrentValue a abilityName in
    let currentCost := goint.sub currentValue DefaultAbilityValue in
    let newCost := goint.sub value DefaultAbilityValue in
    let pointDelta := goint.sub newCost currentCost in
    if (pointDelta >? 0) && (pointsPool a <? pointDelta)
    then (a, Some (ErrInsufficientPoints pointDelta (pointsPool a)))
    else
      match assign a abilityName value with
      | None => (a, Some (ErrUnknownAbility abilityName))
      | Some a' => (debit a' pointDelta, None)
      end.

Definition GetIntelligence (a : Abilities) : Z := intelligence a.
Definition GetPointsPool (a : Abilities) : Z := pointsPool a.

Definition ValidateAbilities (a : Abilities) : option error :=
  first_out_of_range
    (named_values (strength a) (luck a) (charisma a) (agility a)
                  (perception a) (intelligence a)).

(** The six names the switches know. *)
Definition known_name (abilityName : string) : bool :=
  String.eqb abilityName "strength" || String.eqb abilityName "luck"
  || String.eqb abilityName "charisma" || String.eqb abilityName "agility"
  || String.eqb abilityName "perception"
  || String.eqb abilityName "intelligence".

(** The six arguments of [NewAbilities] are each in [1,10]. *)
Definition six_in_range (s l c a p i : Z) : Prop :=
  (1 ≤ s ≤ 10) ∧ (1 ≤ l ≤ 10) ∧ (1 ≤ c ≤ 10)
  ∧ (1 ≤ a ≤ 10) ∧ (1 ≤ p ≤ 10) ∧ (1 ≤ i ≤ 10).

(** The seven fields hold values of Go's [int]. *)
Definition well_typed (a : Abilities) : Prop :=
  goint.is_int (pointsPool a) ∧ goint.is_int (strength a)
  ∧ goint.is_int (luck a) ∧ goint.is_int (charisma a)
  ∧ goint.is_int (agility a) ∧ goint.is_int (perception a)
  ∧ goint.is_int (intelligence a).

(** The ledger of the exported API: what the pool holds is the 35 points of
    a build less the six attributes. *)
Definition ledger (a : Abilities) : Prop :=
  pointsPool a =
    35 - (strength a + luck a + charisma a + agility a + perception a
          + intelligence a).

(** The values the exported API can build: the two constructors, then any
    calls of [AddToAbility] and [SetAbility], failed or not. *)
Inductive reachable : Abilities → Prop :=
  | reach_default : reachable NewDefaultAbilities
  | reach_new s l c a p i ab :
      NewAbilities s l c a p i = (ab, None) → reachable ab
  | reach_add ab name v :
      reachable ab → reachable (AddToAbility ab name v).1
  | reach_set ab name v :
      reachable ab → reachable (SetAbility ab name v).1.

(** The values a program can hold: besides those, the zero value
    [Abilities{}], which any package can write and which [NewAbilities]
    returns next to an error.  The fields are unexported, so no other value
    can be written down outside the package, and the package itself builds
    none. *)
Inductive receivable : Abilities → Prop :=
  | recv_zero : receivable zero
  | recv_default : receivable NewDefaultAbilities
  | recv_new s l c a p i ab e :
      NewAbilities s l c a p i = (ab, e) → receivable ab
  | recv_add ab name v :
      receivable ab → receivable (AddToAbility ab name v).1
  | recv_set ab name v :
      receivable ab → receivable (SetAbility ab name v).1.

(** Every attribute in [1,10]. *)
Definition attrs_in_range (a : Abilities) : Prop :=
  (1 ≤ strength a ≤ 10) ∧ (1 ≤ luck a ≤ 10) ∧ (1 ≤ charisma a ≤ 10)
  ∧ (1 ≤ agility a ≤ 10) ∧ (1 ≤ perception a ≤ 10)
  ∧ (1 ≤ intelligence a ≤ 10).

(** The invariant of the data model: attributes in [1,10], pool not negative. *)
Definition budget_ok (a : Abilities) : Prop :=
  attrs_in_range a ∧ 0 ≤ pointsPool a.

Definition GetStrength (a : Abilities) : Z := strength a.
Definition GetLuck (a : Abilities) : Z := luck a.
Definition GetCharisma (a : Abilities) : Z := charisma a.
Definition GetAgility (a : Abilities) : Z := agility a.
Definition GetPerception (a : Abilities) : Z := perception a.

(** [GetAllAbilities] builds a fresh [map[string]int] with the six keys. *)
Definition GetAllAbilities (a : Abilities) : gmap string Z :=
  <["strength"%string := strength a]>
    (<["luck"%string := luck a]>
       (<["charisma"%string := charisma a]>
          (<["agility"%string := agility a]>
             (<["perception"%string := perception a]>
                (<["intelligence"%string := intelligence a]> ∅))))).

(** Reading a Go map: the zero value for a missing key. *)
Definition map_index (m : gmap string Z) (key : string) : Z :=
  default 0 (m !! key).

End abilities.

(** ** Package condition *)

Module condition.

(** [type Condition string]: a named string type, distinct from [string]
    in a type assertion. *)
Definition Condition : Type := string.

Definition NewCondition (cond : string) : Condition := cond.
Definition String (c : Condition) : string := c.

End condition.

(** ** Package inventory *)

Module inventory.

Definition MinItemAbilityValue : Z := 1.
Definition MaxItemAbilityValue : Z := 4.

(** [abilities *abilities.Abilities] is [Some] of the pointee, [None] for
    a nil pointer. *)
Record Item : Type := mkItem {
  Name : string;
  quantity : Z;
  abilities : option abilities.Abilities;
  condition : condition.Condition;
  description : string
}.

#[export] Instance Item_inhabited : Inhabited Item :=
  populate (mkItem "" 0 None "" "").

Definition SetName (i : Item) (name : string) : Item :=
  mkItem name (quantity i) (abilities i) (condition i) (description i).
Definition SetQuantity (i : Item) (q : Z) : Item :=
  mkItem (Name i) q (abilities i) (condition i) (description i).
Definition SetAbilities (i : Item) (abs : option abilities.Abilities) : Item :=
  mkItem (Name i) (quantity i) abs (condition i) (description i).
Definition SetCondition (i : Item) (cond : condition.Condition) : Item :=
  mkItem (Name i) (quantity i) (abilities i) cond (description i).
Definition SetDescription (i : Item) (d : string) : Item :=
  mkItem (Name i) (quantity i) (abilities i) (condition i) d.

Record Inventory : Type := mkInventory { Items : list Item }.

Fixpoint first_bad_item_ability (entries : list (string * Z)) : option error :=
  match entries with
  | [] => None
  | (name, value) :: rest =>
      if negb (value =? 0)
         && ((value <? MinItemAbilityValue) || (value >? MaxItemAbilityValue))
      then Some (ErrItemAbilityRange name value)
      else first_bad_item_ability rest
  end.

Definition zeroItem : Item := mkItem "" 0 None "" "".

Definition NewItem (name : string) (quantity : Z)
    (abs : option abilities.Abilities) (cond : condition.Condition)
    (description : string) : Item * option error :=
  if quantity <=? 0 then (zeroItem, Some ErrItemQuantity)
  else
    match
      match abs with
      | Some a =>
          first_bad_item_ability
            (abilities.named_values
               (abilities.strength a) (abilities.luck a)
               (abilities.charisma a) (abilities.agility a)
               (abilities.perception a) (abilities.intelligence a))
      | None => None
      end
    with
    | Some e => (zeroItem, Some e)
    | None => (mkItem name quantity abs cond description, None)
    end.

Definition NewInventory : Inventory := mkInventory [].

(** The test of the loop of [AddItem]. *)
Definition same_stack (item x : Item) : Prop :=
  Name x = Name item ∧ condition x = condition item.

#[export] Instance same_stack_dec item x : Decision (same_stack item x).
Proof. unfold same_stack. apply _. Defined.

(** [func (inv *Inventory) AddItem(item Item)]: the loop stops at the first
    index whose entry has the item's name and condition. *)
Definition AddItem (inv : Inventory) (item : Item) : Inventory :=
  match list_find (same_stack item) (Items inv) with
  | Some (i, x) =>
      mkInventory
        (<[i := SetQuantity x (goint.add (quantity x) (quantity item))]> (Items inv))
  | None => mkInventory (Items inv ++ [item])
  end.

(** [func (inv *Inventory) RemoveItem(name string, quantity int) error]:
    [append(inv.Items[:i], inv.Items[i+1:]...)] is [delete i]. *)
Definition RemoveItem (inv : Inventory) (name : string) (qty : Z)
  : Inventory * option error :=
  match list_find (λ x, Name x = name) (Items inv) with
  | Some (i, x) =>
      if quantity x <? qty
      then (inv, Some (ErrInsufficientQuantity (quantity x) qty))
      else
        let q' := goint.sub (quantity x) qty in
        if q' =? 0
        then (mkInventory (delete i (Items inv)), None)
        else (mkInventory (<[i := SetQuantity x q']> (Items inv)), None)
  | None => (inv, Some (ErrItemNotFound name))
  end.

(** [GetItem] returns [&inv.Items[i]] for the first [i] with that name:
    the index, with the entry it points to; [None] is nil. *)
Definition GetItem (inv : Inventory) (name : string) : option (nat * Item) :=
  list_find (λ x, Name x = name) (Items inv).

(** The dynamic value of ChangeItem's [newVal any], by the type assertions
    the method makes; [VOther] is a nil interface or any other type. *)
Inductive any : Type :=
  | VString (v : string)
  | VInt (v : Z)
  | VCondition (v : condition.Condition)
  | VAbilities (v : option abilities.Abilities)
  | VOther.

(** One iteration of the loop of [ChangeItem]; [None] is the [default]
    branch, which returns nil. *)
Definition change_field (item : Item) (field : string) (newVal : any)
  : option Item :=
  if String.eqb field "name" then
    Some (match newVal with VString v => SetName item v | _ => item end)
  else if String.eqb field "quantity" then
    Some (match newVal with VInt v => SetQuantity item v | _ => item end)
  else if String.eqb field "condition" then
    Some (match newVal with VCondition v => SetCondition item v | _ => item end)
  else if String.eqb field "description" then
    Some (match newVal with VString v => SetDescription item v | _ => item end)
  else if String.eqb field "abilities" then
    Some (match newVal with VAbilities v => SetAbilities item v | _ => item end)
  else None.

(** The loop over [fields]: the pointee after the loop, and whether the
    loop ran to its end ([false]: it returned nil at an unknown field). *)
Fixpoint change_fields (item : Item) (fields : list string) (newVal : any)
  : Item * bool :=
  match fields with
  | [] => (item, true)
  | field :: rest =>
      match change_field item field newVal with
      | Some item' => change_fields item' rest newVal
      | None => (item, false)
      end
  end.

(** [func (inv *Inventory) ChangeItem(name string, fields []string,
    newVal any) *Item]: the inventory after the call and the returned
    pointer (an index into [Items]). *)
Definition ChangeItem (inv : Inventory) (name : string)
    (fields : list string) (newVal : any) : Inventory * option nat :=
  if (length (Items inv) =? 0)%nat then (inv, None)
  else
    match GetItem inv name with
    | None => (inv, None)
    | Some (i, item) =>
        let '(item', finished) := change_fields item fields newVal in
        (mkInventory (<[i := item']> (Items inv)),
         if finished then Some i else None)
    end.

(** [i] is the first index of [inv] whose entry satisfies [P], and [x] is
    that entry: where a loop of the package stops. *)
Definition first_at (P : Item → Prop) (inv : Inventory) (i : nat) (x : Item)
  : Prop :=
  Items inv !! i = Some x ∧ P x
  ∧ ∀ j y, Items inv !! j = Some y → (j < i)%nat → ¬ P y.

Definition known_field (field : string) : bool :=
  String.eqb field "name" || String.eqb field "quantity"
  || String.eqb field "condition" || String.eqb field "description"
  || String.eqb field "abilities".

(** What the contract of [changeItem] says of the entry: a field changes
    iff it is listed and the value has the field's type. *)
Definition contract_item (item : Item) (fields : list string) (newVal : any)
  : Item :=
  let listed f := bool_decide (f ∈ fields) in
  {| Name :=
       match newVal with
       | VString v => if listed "name"%string then v else Name item
       | _ => Name item
       end;
     quantity :=
       match newVal with
       | VInt v => if listed "quantity"%string then v else quantity item
       | _ => quantity item
       end;
     abilities :=
       match newVal with
       | VAbilities v => if listed "abilities"%string then v else abilities item
       | _ => abilities item
       end;
     condition :=
       match newVal with
       | VCondition v => if listed "condition"%string then v else condition item
       | _ => condition item
       end;
     description :=
       match newVal with
       | VString v => if listed "description"%string then v else description item
       | _ => description item
       end |}.

Definition GetAllItems (inv : Inventory) : list Item := Items inv.

(** [HasItem] looks at every entry, not only the first with the name. *)
Definition HasItem (inv : Inventory) (name : string) (qty : Z) : bool :=
  existsb (λ item, String.eqb (Name item) name && (quantity item >=? qty))
          (Items inv).

(** [GetTotalWeight]: the running total of the loop, in Go's [int]. *)
Definition GetTotalWeight (inv : Inventory) : Z :=
  fold_left (λ total item, goint.add total (quantity item)) (Items inv) 0.

Definition Clear (inv : Inventory) : Inventory := mkInventory [].

(** The invariant of the data model: no two entries share a name and a
    condition. *)
Definition unique_stacks (inv : Inventory) : Prop :=
  ∀ i j x y, Items inv !! i = Some x → Items inv !! j = Some y →
    Name x = Name y → condition x = condition y → i = j.

(** The mathematical sum of the quantities held. *)
Definition quantity_sum (items : list Item) : Z :=
  foldr (λ item acc, quantity item + acc) 0 items.

(** What [NewItem] asks of an item's abilities: each attribute 0 or in [1,4]. *)
Definition item_abilities_ok (a : abilities.Abilities) : Prop :=
  (abilities.strength a = 0 ∨ 1 ≤ abilities.strength a ≤ 4)
  ∧ (abilities.luck a = 0 ∨ 1 ≤ abilities.luck a ≤ 4)
  ∧ (abilities.charisma a = 0 ∨ 1 ≤ abilities.charisma a ≤ 4)
  ∧ (abilities.agility a = 0 ∨ 1 ≤ abilities.agility a ≤ 4)
  ∧ (abilities.perception a = 0 ∨ 1 ≤ abilities.perception a ≤ 4)
  ∧ (abilities.intelligence a = 0 ∨ 1 ≤ abilities.intelligence a ≤ 4).

End inventory.

(** ** Package character *)

Module character.

Record Character : Type := mkCharacter {
  race : string;
  name : string;
  class : string;
  abilities : abilities.Abilities;
  inventory : inventory.Inventory;
  condition : condition.Condition;
  manaPoints : Z
}.

(** [NewCharacter] logs, then returns the address of a fresh struct: it
    has no error result and no nil result. *)
Definition NewCharacter (race name class : string)
    (abs : abilities.Abilities) (inv : inventory.Inventory)
    (cond : condition.Condition) : Character :=
  {| race := race;
     name := name;
     class := class;
     abilities := abs;
     inventory := inv;
     condition := cond;
     manaPoints := goint.mul (abilities.GetIntelligence abs) 50 |}.

Definition SetName (c : Character) (newName : string) : Character :=
  if negb (String.eqb newName "")
  then mkCharacter (race c) newName (class c) (abilities c) (inventory c)
                   (condition c) (manaPoints c)
  else c.

Definition SetClass (c : Character) (newClass : string) : Character :=
  if negb (String.eqb newClass "")
  then mkCharacter (race c) (name c) newClass (abilities c) (inventory c)
                   (condition c) (manaPoints c)
  else c.

Definition SetCondition (c : Character) (newCondition : condition.Condition)
  : Character :=
  if negb (String.eqb (condition.String newCondition) "")
  then mkCharacter (race c) (name c) (class c) (abilities c) (inventory c)
                   newCondition (manaPoints c)
  else c.

Definition NewDefaultCharacter (race name class : string) : Character :=
  let defaultAbilities := abilities.NewDefaultAbilities in
  let defaultInventory := inventory.NewInventory in
  let defaultCondition := condition.NewCondition "Healthy" in
  {| race := race;
     name := name;
     class := class;
     abilities := defaultAbilities;
     inventory := defaultInventory;
     condition := defaultCondition;
     manaPoints := goint.mul (abilities.GetIntelligence defaultAbilities) 50 |}.

Definition GetName (c : Character) : string := name c.
Definition GetRace (c : Character) : string := race c.
Definition GetClass (c : Character) : string := class c.
Definition GetAbilities (c : Character) : abilities.Abilities := abilities c.
Definition GetInventory (c : Character) : inventory.Inventory := inventory c.
Definition GetCondition (c : Character) : condition.Condition := condition c.
Definition GetManaPoints (c : Character) : Z := manaPoints c.

(** [SetInventory] adds one item to the character's own inventory. *)
Definition SetInventory (c : Character) (newItem : inventory.Item) : Character :=
  mkCharacter (race c) (name c) (class c) (abilities c)
              (inventory.AddItem (inventory c) newItem)
              (condition c) (manaPoints c).

Definition ValidateCharacter (c : Character) : option error :=
  if String.eqb (name c) "" || String.eqb (race c) ""
     || String.eqb (class c) ""
  then Some ErrCharacterEmptyField
  else abilities.ValidateAbilities (abilities c).

End character.

(** ** Package main: what the handlers of game.go do with a decoded request

    The JSON decoding, the HTTP responses and the log are outside the model:
    a request is the decoded struct, the result is the slice [characters]
    after the handler and the rejection it answered with, if any.  The
    handler's last return, on a failure of [json.MarshalIndent], is not
    modelled: the value marshalled holds strings, ints and maps of them,
    which the encoder does not refuse. *)

Module game.

Record AbilitiesDTO : Type := mkAbilitiesDTO {
  Strength : Z;
  Luck : Z;
  Charisma : Z;
  Agility : Z;
  Perception : Z;
  Intelligence : Z
}.

Record ItemDTO : Type := mkItemDTO {
  ItemName : string;
  Quantity : Z;
  ItemCondition : string;
  Description : string;
  ItemAbilities : option AbilitiesDTO
}.

Record CreateCharacterRequest : Type := mkRequest {
  Race : string;
  Name : string;
  Class : string;
  InventoryItems : list ItemDTO;
  Abilities : AbilitiesDTO;
  Condition : string
}.

(** The three [http.Error] answers of the create handler, each carrying the
    error it prints. *)
Inductive rejection : Type :=
  (* "Invalid abilities: %v" *)
  | InvalidAbilities (e : error)
  (* "Invalid item abilities: %v" *)
  | InvalidItemAbilities (e : error)
  (* "Invalid item: %v" *)
  | InvalidItem (e : error).

Definition new_abilities (d : AbilitiesDTO) : abilities.Abilities * option error :=
  abilities.NewAbilities (Strength d) (Luck d) (Charisma d) (Agility d)
                         (Perception d) (Intelligence d).

(** The body of the loop over [req.Inventory.Items]: the item to add, or the
    rejection. *)
Definition make_item (itemDTO : ItemDTO) : inventory.Item + rejection :=
  match
    match ItemAbilities itemDTO with
    | Some d =>
        match new_abilities d with
        | (itemAbs, None) => inl (Some itemAbs)
        | (_, Some err) => inr (InvalidItemAbilities err)
        end
    | None => inl None
    end
  with
  | inr r => inr r
  | inl itemAbilities =>
      match inventory.NewItem (ItemName itemDTO) (Quantity itemDTO) itemAbilities
              (condition.NewCondition (ItemCondition itemDTO))
              (Description itemDTO) with
      | (item, None) => inl item
      | (_, Some err) => inr (InvalidItem err)
      end
  end.

Fixpoint add_items (inv : inventory.Inventory) (items : list ItemDTO)
  : inventory.Inventory + rejection :=
  match items with
  | [] => inl inv
  | itemDTO :: rest =>
      match make_item itemDTO with
      | inr r => inr r
      | inl item => add_items (inventory.AddItem inv item) rest
      end
  end.

(** One iteration of the loop over the requests, up to [NewCharacter]. *)
Definition create_character (req : CreateCharacterRequest)
  : character.Character + rejection :=
  match new_abilities (Abilities req) with
  | (_, Some err) => inr (InvalidAbilities err)
  | (abs, None) =>
      match add_items inventory.NewInventory (InventoryItems req) with
      | inr r => inr r
      | inl inv =>
          inl (character.NewCharacter (Race req) (Name req) (Class req) abs inv
                 (condition.NewCondition (Condition req)))
      end
  end.

(** The loop over the decoded requests: each character is appended to
    [characters] as soon as it is built, and the handler returns at the
    first rejection. *)
Fixpoint create_characters (characters : list character.Character)
    (charReq : list CreateCharacterRequest)
  : list character.Character * option rejection :=
  match charReq with
  | [] => (characters, None)
  | req :: rest =>
      match create_character req with
      | inr r => (characters, Some r)
      | inl c => create_characters (characters ++ [c]) rest
      end
  end.

(** The rows of the listing handler: one per character and item of its
    inventory, in order; and the count it reports. *)
Definition listing_rows (characters : list character.Character)
  : list (character.Character * inventory.Item) :=
  c ← characters;
  (λ item, (c, item)) <$> inventory.GetAllItems (character.GetInventory c).

Definition listing_count (characters : list character.Character) : nat :=
  length characters.

End game.

(** * Properties *)

Section goint_facts.
Import goint.

Lemma wrap_id z : is_int z → wrap z = z.
Proof.
  unfold is_int, wrap, int_min, int_max. intros Hz.
  rewrite Z.mod_small; lia.
Qed.

Lemma wrap_is_int z : is_int (wrap z).
Proof.
  unfold is_int, wrap, int_min, int_max.
  pose proof (Z.mod_pos_bound (z - -9223372036854775808) (2 ^ 64)). lia.
Qed.

Lemma wrap_small z : -100 ≤ z ≤ 100 → wrap z = z.
Proof. intros Hz. apply wrap_id. unfold is_int, int_min, int_max. lia. Qed.


(** [wrap] picks a representative modulo [2^64]. *)
Lemma wrap_period z k : wrap (z + k * 2 ^ 64) = wrap z.
Proof.
  unfold wrap. set (M := 2 ^ 64). set (m := int_min).
  replace (z + k * M - m) with (z - m + k * M) by lia.
  rewrite Z_mod_plus_full. reflexivity.
Qed.

Lemma wrap_offset z : ∃ k, wrap z = z + k * 2 ^ 64.
Proof.
  unfold wrap. set (M := 2 ^ 64). set (m := int_min).
  exists (- ((z - m) / M)).
  rewrite Z.mod_eq by (subst M; lia). lia.
Qed.

Lemma wrap_add_l x y : wrap (wrap x + y) = wrap (x + y).
Proof.
  destruct (wrap_offset x) as [k ->].
  replace (x + k * 2 ^ 64 + y) with (x + y + k * 2 ^ 64) by lia.
  apply wrap_period.
Qed.

Lemma wrap_add_r x y : wrap (x + wrap y) = wrap (x + y).
Proof.
  destruct (wrap_offset y) as [k ->].
  replace (x + (y + k * 2 ^ 64)) with (x + y + k * 2 ^ 64) by lia.
  apply wrap_period.
Qed.

Lemma wrap_sub_l x y : wrap (wrap x - y) = wrap (x - y).
Proof.
  destruct (wrap_offset x) as [k ->].
  replace (x + k * 2 ^ 64 - y) with (x - y + k * 2 ^ 64) by lia.
  apply wrap_period.
Qed.

Lemma wrap_sub_r x y : wrap (x - wrap y) = wrap (x - y).
Proof.
  destruct (wrap_offset y) as [k ->].
  replace (x - (y + k * 2 ^ 64)) with (x - y + (- k) * 2 ^ 64) by lia.
  apply wrap_period.
Qed.

Lemma wrap_wrap z : wrap (wrap z) = wrap z.
Proof. apply wrap_id, wrap_is_int. Qed.

(** Two ints that agree after wrapping a common offset are equal. *)
Lemma wrap_inj x y : is_int x → is_int y → wrap x = wrap y → x = y.
Proof. intros Hx Hy. rewrite !wrap_id by assumption. trivial. Qed.

End goint_facts.

(** Rewrites every wrapped small value to the value itself. *)
Ltac unwrap :=
  unfold goint.add, goint.sub, goint.mul, goint.neg in *;
  repeat match goal with
         | |- context [goint.wrap ?z] => rewrite (wrap_small z) by lia
         | H : context [goint.wrap ?z] |- _ => rewrite (wrap_small z) in H by lia
         end.

(** Case analysis on the integer comparisons of the goal. *)
Ltac zcases :=
  repeat match goal with
         | |- context [?a >? ?b] => rewrite (Z.gtb_ltb a b)
         | |- context [?a <? ?b] => destruct (Z.ltb_spec a b); simpl
         | |- context [?a <=? ?b] => destruct (Z.leb_spec a b); simpl
         | |- context [?a =? ?b] => destruct (Z.eqb_spec a b); simpl
         end.

Section abilities_facts.
Import abilities.

Lemma first_out_of_range_None s l c a p i :
  first_out_of_range (named_values s l c a p i) = None
  ↔ six_in_range s l c a p i.
Proof.
  unfold six_in_range, named_values, first_out_of_range,
    MinAbilityValue, MaxAbilityValue.
  zcases; split; intros; try discriminate; try reflexivity; lia.
Qed.

Lemma NewAbilities_in_range s l c a p i :
  six_in_range s l c a p i →
  NewAbilities s l c a p i =
    if negb (s + l + c + a + p + i =? 35)
    then (zero, Some (ErrTotalPoints (s + l + c + a + p + i) 35))
    else (mkAbilities
            (5 - ((s - 5) + (l - 5) + (c - 5) + (a - 5) + (p - 5) + (i - 5)))
            s l c a p i, None).
Proof.
  intros Hr. unfold NewAbilities.
  rewrite (proj2 (first_out_of_range_None s l c a p i) Hr).
  unfold six_in_range in Hr.
  unfold DefaultAbilityValue, AbilityPointBudget.
  unwrap. reflexivity.
Qed.

Lemma NewAbilities_out_of_range s l c a p i :
  ¬ six_in_range s l c a p i →
  ∃ e, NewAbilities s l c a p i = (zero, Some e).
Proof.
  intros Hr. unfold NewAbilities.
  destruct (first_out_of_range (named_values s l c a p i)) as [e|] eqn:E.
  - eauto.
  - apply first_out_of_range_None in E. contradiction.
Qed.

Lemma six_in_range_dec s l c a p i :
  six_in_range s l c a p i ∨ ¬ six_in_range s l c a p i.
Proof. unfold six_in_range. lia. Qed.

(** C1. [NewAbilities] fails when a value is outside [1,10] or the six
    values do not sum to 35; it succeeds on every tuple with each value in
    [1,10] and sum 35; and whenever it succeeds the returned pointsPool is
    5 − Σ(value_i − 5) and the six attributes are the arguments. *)
Theorem NewAbilities_contract (s l c a p i : Z) :
  (¬ six_in_range s l c a p i ∨ s + l + c + a + p + i ≠ 35 →
     is_Some (NewAbilities s l c a p i).2)
  ∧ (six_in_range s l c a p i ∧ s + l + c + a + p + i = 35 →
     (NewAbilities s l c a p i).2 = None)
  ∧ (∀ ab, NewAbilities s l c a p i = (ab, None) →
       ab = mkAbilities
              (5 - ((s - 5) + (l - 5) + (c - 5) + (a - 5) + (p - 5) + (i - 5)))
              s l c a p i).
Proof.
  destruct (six_in_range_dec s l c a p i) as [Hr|Hr].
  - rewrite (NewAbilities_in_range _ _ _ _ _ _ Hr).
    destruct (Z.eqb_spec (s + l + c + a + p + i) 35) as [E|E]; simpl.
    + split; [intros [?|?]; contradiction|]. split; [reflexivity|].
      intros ab [= <-]. reflexivity.
    + split; [intros _; eexists; reflexivity|].
      split; [intros [_ ?]; contradiction|]. intros ab [=].
  - destruct (NewAbilities_out_of_range _ _ _ _ _ _ Hr) as [e ->]. simpl.
    split; [intros _; eexists; reflexivity|].
    split; [intros [? _]; contradiction|]. intros ab [=].
Qed.

Lemma NewAbilities_contract_witness :
  (NewAbilities 7 5 5 5 5 8).2 = None
  ∧ is_Some (NewAbilities 7 5 5 5 5 9).2
  ∧ is_Some (NewAbilities 11 5 5 5 5 4).2.
Proof.
  split; [|split].
  - apply (NewAbilities_contract 7 5 5 5 5 8).
    unfold six_in_range. lia.
  - apply (NewAbilities_contract 7 5 5 5 5 9). right. lia.
  - apply (NewAbilities_contract 11 5 5 5 5 4). left.
    unfold six_in_range. lia.
Defined.

(** C10. Whenever [NewAbilities] succeeds, the returned pointsPool is 0:
    success needs the sum 35, which spends the whole budget of 5. *)
Theorem NewAbilities_pool_zero (s l c a p i : Z) (ab : Abilities) :
  NewAbilities s l c a p i = (ab, None) → pointsPool ab = 0.
Proof.
  intros H.
  destruct (six_in_range_dec s l c a p i) as [Hr|Hr].
  - rewrite (NewAbilities_in_range _ _ _ _ _ _ Hr) in H.
    destruct (Z.eqb_spec (s + l + c + a + p + i) 35) as [E|E];
      simpl in H; [|discriminate].
    injection H as <-. simpl. lia.
  - destruct (NewAbilities_out_of_range _ _ _ _ _ _ Hr) as [e He].
    rewrite He in H. discriminate.
Qed.

Lemma NewAbilities_pool_zero_witness :
  NewAbilities 7 5 5 5 5 8 = (mkAbilities 0 7 5 5 5 5 8, None)
  ∧ pointsPool (mkAbilities 0 7 5 5 5 5 8) = 0.
Proof.
  split; [reflexivity|].
  apply (NewAbilities_pool_zero 7 5 5 5 5 8). reflexivity.
Defined.

(** *** The two mutators *)

Lemma known_name_cases name :
  known_name name = true ↔
  name = "strength"%string ∨ name = "luck"%string ∨ name = "charisma"%string
  ∨ name = "agility"%string ∨ name = "perception"%string
  ∨ name = "intelligence"%string.
Proof.
  unfold known_name. rewrite !orb_true_iff, !String.eqb_eq. tauto.
Qed.

(** An unknown name reads as 0 and is refused only by the last switch. *)
Lemma unknown_name_reads_zero a name :
  known_name name = false →
  getCurrentValue a name = 0 ∧ ∀ v, assign a name v = None.
Proof.
  unfold known_name, getCurrentValue, assign. rewrite !orb_false_iff.
  intros (((((-> & ->) & ->) & ->) & ->) & ->). destruct a. auto.
Qed.

(** What [AddToAbility] answers to a name outside the six: always an
    error and no change, but the range and budget checks, run on the
    placeholder value 0, answer first. *)
Lemma AddToAbility_unknown a name v :
  known_name name = false →
  AddToAbility a name v =
    (a, Some (let newValue := goint.add 0 v in
              if newValue <? 1 then ErrDecreaseBelowMin name
              else if newValue >? 10 then ErrIncreaseAboveMax name
              else if pointsPool a <? newValue
                   then ErrInsufficientPoints newValue (pointsPool a)
                   else ErrUnknownAbility name)).
Proof.
  intros Hn. destruct (unknown_name_reads_zero a name Hn) as [Hcur Hset].
  unfold AddToAbility. rewrite Hcur, Hset. cbv zeta.
  unfold MinAbilityValue, MaxAbilityValue, DefaultAbilityValue.
  set (nv := goint.add 0 v).
  destruct (Z.ltb_spec nv 1); [reflexivity|].
  rewrite (Z.gtb_ltb nv 10).
  destruct (Z.ltb_spec 10 nv); [reflexivity|].
  assert (goint.sub (goint.sub nv 5) (goint.sub 0 5) = nv) as ->
    by (unwrap; lia).
  rewrite (Z.gtb_ltb nv 0).
  destruct (Z.ltb_spec 0 nv); [|lia]. simpl.
  destruct (Z.ltb_spec (pointsPool a) nv); reflexivity.
Qed.

(** C2, on the code.  With an unrecognized name the call does fail, but
    the error is the unknown-ability one only for a delta in [1,10] that
    the pool covers: a decrease, a zero delta, a delta above 10 and a delta
    above the pool are answered by the range and budget checks, which run
    first on the placeholder value 0. *)
Theorem AddToAbility_unknown_name_error :
  AddToAbility NewDefaultAbilities "stamina" (-1)
    = (NewDefaultAbilities, Some (ErrDecreaseBelowMin "stamina"))
  ∧ AddToAbility NewDefaultAbilities "stamina" 0
    = (NewDefaultAbilities, Some (ErrDecreaseBelowMin "stamina"))
  ∧ AddToAbility NewDefaultAbilities "stamina" 11
    = (NewDefaultAbilities, Some (ErrIncreaseAboveMax "stamina"))
  ∧ AddToAbility NewDefaultAbilities "stamina" 6
    = (NewDefaultAbilities, Some (ErrInsufficientPoints 6 5))
  ∧ AddToAbility NewDefaultAbilities "stamina" 3
    = (NewDefaultAbilities, Some (ErrUnknownAbility "stamina")).
Proof. repeat split; vm_compute; reflexivity. Qed.

(** Splits on which of the six names [name] is, the seventh case being a
    name that is none of them. *)
Ltac name_cases name :=
  destruct (String.eqb_spec name "strength") as [->|?];
  [|destruct (String.eqb_spec name "luck") as [->|?];
    [|destruct (String.eqb_spec name "charisma") as [->|?];
      [|destruct (String.eqb_spec name "agility") as [->|?];
        [|destruct (String.eqb_spec name "perception") as [->|?];
          [|destruct (String.eqb_spec name "intelligence") as [->|?]]]]]];
  cbv beta iota.

Ltac int_bounds :=
  unfold goint.is_int, goint.int_min, goint.int_max in *; lia.

(** Removes the wraps whose argument is provably an int. *)
Ltac unwrap_int :=
  unfold goint.add, goint.sub, goint.mul, goint.neg in *;
  repeat match goal with
         | |- context [goint.wrap ?z] => rewrite (wrap_id z) by int_bounds
         end.

(** Resolves the checks of a mutator left in the goal, one comparison at a
    time, after removing the wraps the earlier checks have made harmless. *)
Ltac run_checks :=
  repeat (unwrap_int;
          match goal with
          | |- context [?x >? ?y] => rewrite (Z.gtb_ltb x y)
          | |- context [if ?x <? ?y then _ else _] =>
              destruct (Z.ltb_spec x y); cbn [andb fst snd]
          | |- context [(?x <? ?y) && _] =>
              destruct (Z.ltb_spec x y); cbn [andb fst snd]
          end).

(** The common opening of the invariant proofs: the state as a record, its
    invariant as inequalities, the method unfolded. *)
Ltac open_mutator Hb :=
  let Hr := fresh "Hr" in
  pose proof Hb as Hr; unfold budget_ok, attrs_in_range, ledger in Hr;
  cbn [pointsPool strength luck charisma agility perception intelligence] in *;
  unfold AddToAbility, SetAbility, getCurrentValue, assign, debit,
    MinAbilityValue, MaxAbilityValue, DefaultAbilityValue;
  cbn [pointsPool strength luck charisma agility perception intelligence].

Ltac close_mutator :=
  unwrap_int; unfold budget_ok, attrs_in_range, ledger;
  cbn [fst pointsPool strength luck charisma agility perception intelligence];
  unwrap_int; int_bounds.

Lemma AddToAbility_budget a name v :
  budget_ok a → pointsPool a ≤ goint.int_max - 9 →
  budget_ok (AddToAbility a name v).1.
Proof.
  destruct a as [pool s l c g p i]. intros Hb Hmax. open_mutator Hb.
  name_cases name;
    match goal with
    | |- context [goint.add ?x ?y] => generalize (goint.add x y); intros nv
    end;
    run_checks; try exact Hb; close_mutator.
Qed.

Lemma SetAbility_budget a name v :
  budget_ok a → pointsPool a ≤ goint.int_max - 9 →
  budget_ok (SetAbility a name v).1.
Proof.
  destruct a as [pool s l c g p i]. intros Hb Hmax. open_mutator Hb.
  destruct (Z.ltb_spec v 1); [exact Hb|].
  rewrite (Z.gtb_ltb v 10). destruct (Z.ltb_spec 10 v); [exact Hb|].
  name_cases name; run_checks; try exact Hb; close_mutator.
Qed.

(** The step of the invariant, for any record of seven ints: from a state
    with every attribute in [1,10] and 0 ≤ pointsPool ≤ MaxInt64 − 9, a call
    of [AddToAbility] or of [SetAbility], failed or not, leaves every
    attribute in [1,10] and the pool non-negative.  The upper bound keeps
    the refund of a decrease, at most 9 points, inside the int range. *)
Lemma mutators_keep_budget (a : Abilities) (name : string) (v : Z) :
  budget_ok a → pointsPool a ≤ goint.int_max - 9 →
  budget_ok (AddToAbility a name v).1 ∧ budget_ok (SetAbility a name v).1.
Proof.
  intros Hb Hmax. split.
  - apply AddToAbility_budget; assumption.
  - apply SetAbility_budget; assumption.
Qed.

Lemma mutators_keep_budget_witness :
  budget_ok NewDefaultAbilities
  ∧ budget_ok (AddToAbility NewDefaultAbilities "luck" 3).1
  ∧ budget_ok (SetAbility NewDefaultAbilities "luck" 3).1.
Proof.
  assert (budget_ok NewDefaultAbilities) as Hb
    by (unfold budget_ok, attrs_in_range; simpl;
        unfold DefaultAbilityValue, AbilityPointBudget; lia).
  split; [exact Hb|].
  apply (mutators_keep_budget NewDefaultAbilities "luck"); [exact Hb|].
  simpl. unfold AbilityPointBudget, goint.int_max. lia.
Defined.

(** Why [mutators_keep_budget] has its upper bound: on the record with the
    pool at MaxInt64 and strength 10, lowering strength by one refunds a
    point and the pool wraps to MinInt64.  No program holds that record
    (see [receivable_budget] below): it is a fact of the arithmetic, not a
    behaviour of the package. *)
Lemma mutators_keep_budget_overflow :
  budget_ok (mkAbilities goint.int_max 10 5 5 5 5 5)
  ∧ well_typed (mkAbilities goint.int_max 10 5 5 5 5 5)
  ∧ AddToAbility (mkAbilities goint.int_max 10 5 5 5 5 5) "strength" (-1)
    = (mkAbilities goint.int_min 9 5 5 5 5 5, None)
  ∧ ¬ budget_ok
        (AddToAbility (mkAbilities goint.int_max 10 5 5 5 5 5) "strength" (-1)).1.
Proof.
  split; [|split; [|split]].
  - unfold budget_ok, attrs_in_range, goint.int_max. simpl. lia.
  - unfold well_typed, goint.is_int, goint.int_max, goint.int_min. simpl. lia.
  - vm_compute. reflexivity.
  - replace (AddToAbility (mkAbilities goint.int_max 10 5 5 5 5 5) "strength" (-1))
      with (mkAbilities goint.int_min 9 5 5 5 5 5, @None error)
      by (vm_compute; reflexivity).
    unfold budget_ok, goint.int_min. simpl. lia.
Qed.

Lemma AddToAbility_ledger a name v :
  budget_ok a → ledger a → ledger (AddToAbility a name v).1.
Proof.
  destruct a as [pool s l c g p i]. intros Hb Hl.
  unfold ledger in Hl. open_mutator Hb.
  name_cases name;
    match goal with
    | |- context [goint.add ?x ?y] => generalize (goint.add x y); intros nv
    end;
    run_checks; try exact Hl; close_mutator.
Qed.

Lemma SetAbility_ledger a name v :
  budget_ok a → ledger a → ledger (SetAbility a name v).1.
Proof.
  destruct a as [pool s l c g p i]. intros Hb Hl.
  unfold ledger in Hl. open_mutator Hb.
  destruct (Z.ltb_spec v 1); [exact Hl|].
  rewrite (Z.gtb_ltb v 10). destruct (Z.ltb_spec 10 v); [exact Hl|].
  name_cases name; run_checks; try exact Hl; close_mutator.
Qed.

Lemma ledger_bounds_pool a :
  budget_ok a → ledger a → pointsPool a ≤ goint.int_max - 9.
Proof.
  unfold budget_ok, attrs_in_range, ledger, goint.int_max.
  intros Hr Hl. lia.
Qed.

(** On every value the exported API can build, the invariant of the data
    model holds, with the pool between 0 and 29. *)
Lemma reachable_budget_ok a :
  reachable a → budget_ok a ∧ ledger a ∧ 0 ≤ pointsPool a ≤ 29.
Proof.
  assert (∀ a, budget_ok a ∧ ledger a →
               budget_ok a ∧ ledger a ∧ 0 ≤ pointsPool a ≤ 29) as Hfin.
  { clear. intros a [Hb Hl]. split; [exact Hb|]. split; [exact Hl|].
    unfold budget_ok, attrs_in_range, ledger in *. lia. }
  intros Hreach. apply Hfin.
  induction Hreach as [|s l c g p i ab Hnew|ab name v _ [Hb Hl]|ab name v _ [Hb Hl]].
  - unfold budget_ok, attrs_in_range, ledger. simpl.
    unfold DefaultAbilityValue, AbilityPointBudget. lia.
  - destruct (six_in_range_dec s l c g p i) as [Hr|Hr].
    + rewrite (NewAbilities_in_range _ _ _ _ _ _ Hr) in Hnew.
      destruct (Z.eqb_spec (s + l + c + g + p + i) 35) as [E|E];
        simpl in Hnew; [|discriminate].
      injection Hnew as <-.
      unfold budget_ok, attrs_in_range, ledger, six_in_range in *. simpl. lia.
    + destruct (NewAbilities_out_of_range _ _ _ _ _ _ Hr) as [e He].
      rewrite He in Hnew. discriminate.
  - split.
    + apply AddToAbility_budget; [exact Hb|]. apply ledger_bounds_pool; assumption.
    + apply AddToAbility_ledger; assumption.
  - split.
    + apply SetAbility_budget; [exact Hb|]. apply ledger_bounds_pool; assumption.
    + apply SetAbility_ledger; assumption.
Qed.

(** The zero value is stuck: every call of a mutator on it fails, since any
    value in [1,10] costs that many points against a pool of 0. *)
Lemma zero_stuck name v :
  (AddToAbility zero name v).1 = zero ∧ (SetAbility zero name v).1 = zero.
Proof.
  split.
  - unfold zero, AddToAbility, getCurrentValue, assign, debit,
      MinAbilityValue, MaxAbilityValue, DefaultAbilityValue.
    cbn [pointsPool strength luck charisma agility perception intelligence].
    name_cases name;
      match goal with
      | |- context [goint.add ?x ?y] => generalize (goint.add x y); intros nv
      end;
      run_checks; try reflexivity; int_bounds.
  - unfold zero, SetAbility, getCurrentValue, assign, debit,
      MinAbilityValue, MaxAbilityValue, DefaultAbilityValue.
    cbn [pointsPool strength luck charisma agility perception intelligence].
    destruct (Z.ltb_spec v 1); [reflexivity|].
    rewrite (Z.gtb_ltb v 10). destruct (Z.ltb_spec 10 v); [reflexivity|].
    name_cases name; run_checks; try reflexivity; int_bounds.
Qed.

(** A value a program can hold is the zero value or satisfies the invariant
    and the ledger, with the pool between 0 and 29. *)
Lemma receivable_budget a :
  receivable a → a = zero ∨ (budget_ok a ∧ ledger a ∧ 0 ≤ pointsPool a ≤ 29).
Proof.
  assert (∀ b, reachable b → budget_ok b ∧ ledger b ∧ 0 ≤ pointsPool b ≤ 29)
    as Hreach by exact reachable_budget_ok.
  assert (∀ b, budget_ok b ∧ ledger b ∧ 0 ≤ pointsPool b ≤ 29 →
               pointsPool b ≤ goint.int_max - 9) as Hmax.
  { intros b (_ & _ & Hp). unfold goint.int_max. lia. }
  induction 1 as [| |s l c g p i ab e Hnew|ab name v _ IH|ab name v _ IH].
  - left. reflexivity.
  - right. apply Hreach. constructor.
  - destruct e as [e|].
    + left. unfold NewAbilities in Hnew.
      destruct (first_out_of_range (named_values s l c g p i));
        [injection Hnew as <- _; reflexivity|].
      destruct (negb _); [injection Hnew as <- _; reflexivity|discriminate].
    + right. apply Hreach. econstructor. exact Hnew.
  - destruct IH as [->|IH].
    + left. apply zero_stuck.
    + right. pose proof (Hmax _ IH) as Hm. destruct IH as (Hb & Hl & _).
      assert (budget_ok (AddToAbility ab name v).1) as Hb'
        by (apply AddToAbility_budget; assumption).
      assert (ledger (AddToAbility ab name v).1) as Hl'
        by (apply AddToAbility_ledger; assumption).
      split; [exact Hb'|]. split; [exact Hl'|].
      unfold budget_ok, attrs_in_range, ledger in Hb', Hl'. lia.
  - destruct IH as [->|IH].
    + left. apply zero_stuck.
    + right. pose proof (Hmax _ IH) as Hm. destruct IH as (Hb & Hl & _).
      assert (budget_ok (SetAbility ab name v).1) as Hb'
        by (apply SetAbility_budget; assumption).
      assert (ledger (SetAbility ab name v).1) as Hl'
        by (apply SetAbility_ledger; assumption).
      split; [exact Hb'|]. split; [exact Hl'|].
      unfold budget_ok, attrs_in_range, ledger in Hb', Hl'. lia.
Qed.

(** C3. For every Abilities state a program can hold (the zero value, the
    results of the two constructors, and whatever calls of the two mutators
    make of them) that has all six attributes in [1,10] and pointsPool ≥ 0,
    and for every attribute name and argument, a call of [AddToAbility] or
    of [SetAbility], failed or not, leaves every attribute in [1,10] and
    pointsPool ≥ 0. *)
Theorem mutators_keep_budget_receivable (a : Abilities) (name : string) (v : Z) :
  receivable a → budget_ok a →
  budget_ok (AddToAbility a name v).1 ∧ budget_ok (SetAbility a name v).1.
Proof.
  intros Hrecv Hb.
  destruct (receivable_budget a Hrecv) as [->|(_ & _ & Hp)].
  - exfalso. unfold budget_ok, attrs_in_range, zero in Hb. simpl in Hb. lia.
  - assert (pointsPool a ≤ goint.int_max - 9) as Hmax
      by (unfold goint.int_max; lia).
    split.
    + apply AddToAbility_budget; assumption.
    + apply SetAbility_budget; assumption.
Qed.

Lemma mutators_keep_budget_receivable_witness :
  receivable (mkAbilities 0 7 5 5 5 5 8)
  ∧ budget_ok (mkAbilities 0 7 5 5 5 5 8)
  ∧ budget_ok (AddToAbility (mkAbilities 0 7 5 5 5 5 8) "strength" (-2)).1
  ∧ budget_ok (SetAbility (mkAbilities 0 7 5 5 5 5 8) "luck" 1).1.
Proof.
  assert (receivable (mkAbilities 0 7 5 5 5 5 8)) as Hrecv
    by (apply (recv_new 7 5 5 5 5 8 _ None); reflexivity).
  assert (budget_ok (mkAbilities 0 7 5 5 5 5 8)) as Hb
    by (unfold budget_ok, attrs_in_range; simpl; lia).
  split; [exact Hrecv|]. split; [exact Hb|].
  split.
  - exact (proj1 (mutators_keep_budget_receivable _ "strength" (-2) Hrecv Hb)).
  - exact (proj2 (mutators_keep_budget_receivable _ "luck" 1 Hrecv Hb)).
Defined.

(** *** Round trip *)

Lemma add_neg_cancel x d :
  goint.is_int x → goint.wrap (goint.wrap (x + d) + goint.wrap (- d)) = x.
Proof.
  intros Hx. rewrite wrap_add_l, wrap_add_r.
  replace (x + d + - d) with x by lia. apply wrap_id, Hx.
Qed.

Lemma refund_cancel pool x y :
  goint.is_int pool → x + y = 0 →
  goint.wrap (goint.wrap (pool - x) - y) = pool.
Proof.
  intros Hp Hxy. rewrite wrap_sub_l.
  replace (pool - x - y) with pool by lia. apply wrap_id, Hp.
Qed.

(** Splits on the comparisons of a hypothesis, dropping the branches that
    return an error. *)
Ltac split_checks H :=
  repeat match type of H with
         | context [?x >? ?y] => rewrite (Z.gtb_ltb x y) in H
         | context [?x <? ?y] =>
             destruct (Z.ltb_spec x y); simpl in H; try discriminate H
         end.

Lemma add_then_neg x d :
  goint.is_int x → goint.add (goint.add x d) (goint.neg d) = x.
Proof. apply add_neg_cancel. Qed.

(** One attribute's round trip: both calls unfolded, the value after the
    second call rewritten to the value before the first, the pool settled
    by [refund_cancel]. *)
Ltac roundtrip_case Hwt H1 H2 :=
  unfold AddToAbility, getCurrentValue, assign, debit,
    MinAbilityValue, MaxAbilityValue, DefaultAbilityValue in H1;
  cbn in H1;
  match type of H1 with
  | context [goint.add ?x ?d] =>
      let Hback := fresh "Hback" in
      assert (goint.add (goint.add x d) (goint.neg d) = x) as Hback
        by (apply add_then_neg; tauto);
      generalize dependent (goint.add x d); intros nv H1 Hback
  end;
  split_checks H1; injection H1 as <-;
  unfold AddToAbility, getCurrentValue, assign, debit,
    MinAbilityValue, MaxAbilityValue, DefaultAbilityValue in H2;
  cbn in H2;
  match goal with Hback : _ = _ |- _ => rewrite Hback in H2 end;
  split_checks H2; injection H2 as <-;
  f_equal; unfold goint.sub at 1 2;
  (apply refund_cancel; [tauto | unwrap_int; lia]).

(** C4. If [AddToAbility] with delta [d] succeeds and [AddToAbility] with
    delta [-d] on the same attribute then succeeds, the attribute and the
    pool are back at their values before the two calls; no other field
    changed either, so the whole value is the one before. *)
Theorem AddToAbility_roundtrip (a a1 a2 : Abilities) (name : string) (d : Z) :
  well_typed a →
  AddToAbility a name d = (a1, None) →
  AddToAbility a1 name (goint.neg d) = (a2, None) →
  getCurrentValue a2 name = getCurrentValue a name
  ∧ pointsPool a2 = pointsPool a
  ∧ a2 = a.
Proof.
  intros Hwt H1 H2.
  enough (a2 = a) as -> by auto.
  destruct (known_name name) eqn:Hk.
  - apply known_name_cases in Hk.
    destruct a as [pool s l c g p i].
    unfold well_typed in Hwt.
    cbn [pointsPool strength luck charisma agility perception intelligence] in Hwt.
    destruct Hk as [->|[->|[->|[->|[->| ->]]]]];
      roundtrip_case Hwt H1 H2.
  - rewrite (AddToAbility_unknown a name d Hk) in H1. discriminate.
Qed.

(** *** More on the two mutators *)

(** What a successful call did, read off the code: the last switch assigned
    the new value and the pool was debited by the cost difference. *)
Lemma SetAbility_success a name v a' :
  SetAbility a name v = (a', None) →
  1 ≤ v ≤ 10
  ∧ ∃ a1, assign a name v = Some a1
      ∧ a' = debit a1 (goint.sub (goint.sub v 5)
                         (goint.sub (getCurrentValue a name) 5))
      ∧ ¬ (0 < goint.sub (goint.sub v 5) (goint.sub (getCurrentValue a name) 5)
           ∧ pointsPool a
             < goint.sub (goint.sub v 5) (goint.sub (getCurrentValue a name) 5)).
Proof.
  unfold SetAbility, MinAbilityValue, MaxAbilityValue, DefaultAbilityValue.
  destruct (Z.ltb_spec v 1); [discriminate|].
  rewrite (Z.gtb_ltb v 10). destruct (Z.ltb_spec 10 v); [discriminate|].
  cbv zeta.
  set (pd := goint.sub (goint.sub v 5) (goint.sub (getCurrentValue a name) 5)).
  rewrite (Z.gtb_ltb pd 0).
  destruct (Z.ltb_spec 0 pd); cbn [andb];
    [destruct (Z.ltb_spec (pointsPool a) pd); [discriminate|]|];
    (destruct (assign a name v) as [a1|] eqn:Ha; [|discriminate]);
    intros [= <-]; (split; [lia|]); exists a1; repeat split; lia.
Qed.

Lemma AddToAbility_success a name v a' :
  AddToAbility a name v = (a', None) →
  1 ≤ goint.add (getCurrentValue a name) v ≤ 10
  ∧ ∃ a1, assign a name (goint.add (getCurrentValue a name) v) = Some a1
      ∧ a' = debit a1 (goint.sub
                         (goint.sub (goint.add (getCurrentValue a name) v) 5)
                         (goint.sub (getCurrentValue a name) 5))
      ∧ ¬ (0 < goint.sub (goint.sub (goint.add (getCurrentValue a name) v) 5)
                 (goint.sub (getCurrentValue a name) 5)
           ∧ pointsPool a
             < goint.sub (goint.sub (goint.add (getCurrentValue a name) v) 5)
                 (goint.sub (getCurrentValue a name) 5)).
Proof.
  unfold AddToAbility, MinAbilityValue, MaxAbilityValue, DefaultAbilityValue.
  cbv zeta. set (nv := goint.add (getCurrentValue a name) v).
  destruct (Z.ltb_spec nv 1); [discriminate|].
  rewrite (Z.gtb_ltb nv 10). destruct (Z.ltb_spec 10 nv); [discriminate|].
  set (pd := goint.sub (goint.sub nv 5) (goint.sub (getCurrentValue a name) 5)).
  rewrite (Z.gtb_ltb pd 0).
  destruct (Z.ltb_spec 0 pd); cbn [andb];
    [destruct (Z.ltb_spec (pointsPool a) pd); [discriminate|]|];
    (destruct (assign a name nv) as [a1|] eqn:Ha; [|discriminate]);
    intros [= <-]; (split; [lia|]); exists a1; repeat split; lia.
Qed.

(** The last switch: it knows exactly the six names, writes the named
    attribute and nothing else. *)
Lemma assign_spec a name v a1 :
  assign a name v = Some a1 →
  known_name name = true
  ∧ getCurrentValue a1 name = v
  ∧ pointsPool a1 = pointsPool a
  ∧ ∀ other, other ≠ name → getCurrentValue a1 other = getCurrentValue a other.
Proof.
  intros Ha. destruct (known_name name) eqn:Hk.
  - split; [reflexivity|]. apply known_name_cases in Hk.
    destruct a as [pool s l c g p i].
    destruct Hk as [->|[->|[->|[->|[->| ->]]]]];
      cbn in Ha; injection Ha as <-;
      (split; [reflexivity|]); (split; [reflexivity|]);
      intros other Hne; unfold getCurrentValue;
      cbn [pointsPool strength luck charisma agility perception intelligence];
      name_cases other; try reflexivity; contradiction.
  - destruct (unknown_name_reads_zero a name Hk) as [_ Hnone].
    rewrite Hnone in Ha. discriminate.
Qed.

Lemma assign_known a name v :
  known_name name = true → is_Some (assign a name v).
Proof.
  intros Hk. apply known_name_cases in Hk. destruct a.
  destruct Hk as [->|[->|[->|[->|[->| ->]]]]]; eexists; reflexivity.
Qed.

Lemma debit_spec a k :
  pointsPool (debit a k) = goint.sub (pointsPool a) k
  ∧ ∀ name, getCurrentValue (debit a k) name = getCurrentValue a name.
Proof. destruct a. split; reflexivity. Qed.

Lemma known_attr_in_range a name :
  attrs_in_range a → known_name name = true →
  1 ≤ getCurrentValue a name ≤ 10.
Proof.
  intros Hr Hk. apply known_name_cases in Hk.
  unfold attrs_in_range in Hr.
  destruct Hk as [->|[->|[->|[->|[->| ->]]]]]; cbn; tauto.
Qed.

(** X1. A call that returns an error has changed nothing. *)
Theorem mutators_fail_unchanged (a : Abilities) (name : string) (v : Z) :
  (is_Some (AddToAbility a name v).2 → (AddToAbility a name v).1 = a)
  ∧ (is_Some (SetAbility a name v).2 → (SetAbility a name v).1 = a).
Proof.
  split.
  - unfold AddToAbility. cbv zeta.
    repeat match goal with
           | |- context [if ?b then _ else _] => destruct b
           end; try reflexivity.
    destruct (assign a name _); [|reflexivity].
    cbn. intros [e He]. discriminate.
  - unfold SetAbility. cbv zeta.
    repeat match goal with
           | |- context [if ?b then _ else _] => destruct b
           end; try reflexivity.
    destruct (assign a name _); [|reflexivity].
    cbn. intros [e He]. discriminate.
Qed.

(** X2. With a name that is none of the six, both mutators fail and change
    nothing; which error they give is decided by the checks that run on the
    placeholder value 0 before the name is looked at. *)
Theorem unknown_name_refused (a : Abilities) (name : string) (v : Z) :
  known_name name = false →
  AddToAbility a name v =
    (a, Some (if goint.add 0 v <? 1 then ErrDecreaseBelowMin name
              else if goint.add 0 v >? 10 then ErrIncreaseAboveMax name
              else if pointsPool a <? goint.add 0 v
                   then ErrInsufficientPoints (goint.add 0 v) (pointsPool a)
                   else ErrUnknownAbility name))
  ∧ SetAbility a name v =
    (a, Some (if v <? 1 then ErrSetBelowMin name
              else if v >? 10 then ErrSetAboveMax name
              else if pointsPool a <? v
                   then ErrInsufficientPoints v (pointsPool a)
                   else ErrUnknownAbility name)).
Proof.
  intros Hn. split; [exact (AddToAbility_unknown a name v Hn)|].
  destruct (unknown_name_reads_zero a name Hn) as [Hcur Hset].
  unfold SetAbility. rewrite Hcur, Hset. cbv zeta.
  unfold MinAbilityValue, MaxAbilityValue, DefaultAbilityValue.
  destruct (Z.ltb_spec v 1); [reflexivity|].
  rewrite (Z.gtb_ltb v 10).
  destruct (Z.ltb_spec 10 v); [reflexivity|].
  assert (goint.sub (goint.sub v 5) (goint.sub 0 5) = v) as ->
    by (unwrap; lia).
  rewrite (Z.gtb_ltb v 0).
  destruct (Z.ltb_spec 0 v); [|lia]. simpl.
  destruct (Z.ltb_spec (pointsPool a) v); reflexivity.
Qed.

Lemma unknown_name_refused_witness :
  AddToAbility NewDefaultAbilities "stamina" 3
    = (NewDefaultAbilities, Some (ErrUnknownAbility "stamina"))
  ∧ SetAbility NewDefaultAbilities "stamina" 11
    = (NewDefaultAbilities, Some (ErrSetAboveMax "stamina")).
Proof.
  split.
  - exact (proj1 (unknown_name_refused NewDefaultAbilities "stamina" 3 eq_refl)).
  - exact (proj2 (unknown_name_refused NewDefaultAbilities "stamina" 11 eq_refl)).
Defined.

Lemma SetAbility_matches_add (a : Abilities) (name : string) (d : Z) :
  (SetAbility a name (goint.add (getCurrentValue a name) d)).1
    = (AddToAbility a name d).1
  ∧ ((SetAbility a name (goint.add (getCurrentValue a name) d)).2 = None
     ↔ (AddToAbility a name d).2 = None).
Proof.
  unfold SetAbility, AddToAbility. cbv zeta.
  set (nv := goint.add (getCurrentValue a name) d).
  destruct (nv <? MinAbilityValue); [split; [reflexivity|split; discriminate]|].
  destruct (nv >? MaxAbilityValue); [split; [reflexivity|split; discriminate]|].
  destruct (_ && _); [split; [reflexivity|split; discriminate]|].
  destruct (assign a name nv); split; try reflexivity; split; try discriminate;
    reflexivity.
Qed.

(** X3. [SetAbility] to the value [AddToAbility] would reach does the same to
    the state, and succeeds exactly when [AddToAbility] does; only the
    wording of the range errors differs. *)
Theorem SetAbility_as_AddToAbility (a : Abilities) (name : string) (d : Z) :
  (SetAbility a name (goint.add (getCurrentValue a name) d)).1
    = (AddToAbility a name d).1
  ∧ ((SetAbility a name (goint.add (getCurrentValue a name) d)).2 = None
     ↔ (AddToAbility a name d).2 = None).
Proof. exact (SetAbility_matches_add a name d). Qed.

Lemma zero_reads_zero name : getCurrentValue zero name = 0.
Proof. unfold getCurrentValue, zero. name_cases name; reflexivity. Qed.

(** A sum of an attribute and an int delta lands in [1,10] after the wrap
    exactly when it does before. *)
Lemma add_in_range cur d :
  1 ≤ cur ≤ 10 → goint.is_int d →
  (1 ≤ goint.add cur d ≤ 10 ↔ 1 ≤ cur + d ≤ 10)
  ∧ (1 ≤ cur + d ≤ 10 → goint.add cur d = cur + d).
Proof.
  intros Hc Hd. unfold goint.add.
  pose proof (wrap_is_int (cur + d)) as Hw.
  destruct (wrap_offset (cur + d)) as [k Hk].
  unfold goint.is_int, goint.int_min, goint.int_max in *.
  change (2 ^ 64) with 18446744073709551616 in Hk.
  split; [split|]; intros; lia.
Qed.

Lemma SetAbility_cases (a : Abilities) (name : string) (v : Z) :
  receivable a → budget_ok a → known_name name = true →
  ((SetAbility a name v).2 = None
   ↔ 1 ≤ v ≤ 10 ∧ v - getCurrentValue a name ≤ pointsPool a)
  ∧ (∀ a', SetAbility a name v = (a', None) →
       getCurrentValue a' name = v
       ∧ pointsPool a' = pointsPool a - (v - getCurrentValue a name)
       ∧ 0 ≤ pointsPool a'
       ∧ ∀ other, other ≠ name →
           getCurrentValue a' other = getCurrentValue a other).
Proof.
  intros Hrecv Hb Hk.
  pose proof (known_attr_in_range a name (proj1 Hb) Hk) as Hcur.
  destruct (receivable_budget a Hrecv) as [->|(_ & _ & Hp)].
  { rewrite zero_reads_zero in Hcur. lia. }
  assert (goint.sub (goint.sub v 5) (goint.sub (getCurrentValue a name) 5)
          = goint.wrap (v - getCurrentValue a name)) as Hpd.
  { unfold goint.sub. rewrite wrap_sub_l, wrap_sub_r. f_equal. lia. }
  split; [split|].
  - destruct (SetAbility a name v) as [a' [e|]] eqn:E; [discriminate|].
    intros _. destruct (SetAbility_success a name v a' E) as (Hv & a1 & _ & _ & Hno).
    split; [exact Hv|]. rewrite Hpd in Hno.
    rewrite wrap_small in Hno by lia. lia.
  - intros [Hv Hcover]. unfold SetAbility,
      MinAbilityValue, MaxAbilityValue, DefaultAbilityValue. cbv zeta.
    rewrite Hpd, (wrap_small (v - getCurrentValue a name)) by lia.
    destruct (Z.ltb_spec v 1); [lia|].
    rewrite (Z.gtb_ltb v 10). destruct (Z.ltb_spec 10 v); [lia|].
    rewrite (Z.gtb_ltb _ 0).
    destruct (assign_known a name v Hk) as [a1 ->].
    destruct (Z.ltb_spec 0 (v - getCurrentValue a name)); cbn [andb];
      [destruct (Z.ltb_spec (pointsPool a) (v - getCurrentValue a name)); [lia|]|];
      reflexivity.
  - intros a' E.
    destruct (SetAbility_success a name v a' E) as (Hv & a1 & Ha & -> & Hno).
    destruct (assign_spec a name v a1 Ha) as (_ & Hget & Hpool & Hframe).
    assert (goint.wrap (v - getCurrentValue a name) = v - getCurrentValue a name)
      as Hsmall by (apply wrap_small; lia).
    rewrite Hpd, Hsmall in Hno. rewrite Hpd, Hsmall.
    destruct (debit_spec a1 (v - getCurrentValue a name)) as [Hdp Hdg].
    rewrite Hpool in Hdp. unfold goint.sub in Hdp.
    rewrite wrap_small in Hdp by lia.
    rewrite Hdg, Hdp.
    split; [exact Hget|]. split; [reflexivity|].
    split; [lia|]. intros other Hne. rewrite Hdg. apply Hframe, Hne.
Qed.

(** X4. The contract of [SetAbility] on a known name, for a state a program can
    hold with its attributes in range: it succeeds exactly when the value is
    in [1,10] and the pool covers the rise; then the attribute is the value,
    the pool has paid the difference (a fall is refunded) and stays
    non-negative, and no other attribute moved. *)
Theorem SetAbility_contract (a : Abilities) (name : string) (v : Z) :
  receivable a → budget_ok a → known_name name = true →
  ((SetAbility a name v).2 = None
   ↔ 1 ≤ v ≤ 10 ∧ v - getCurrentValue a name ≤ pointsPool a)
  ∧ (∀ a', SetAbility a name v = (a', None) →
       getCurrentValue a' name = v
       ∧ pointsPool a' = pointsPool a - (v - getCurrentValue a name)
       ∧ 0 ≤ pointsPool a'
       ∧ ∀ other, other ≠ name →
           getCurrentValue a' other = getCurrentValue a other).
Proof. exact (SetAbility_cases a name v). Qed.

Lemma SetAbility_contract_witness :
  SetAbility NewDefaultAbilities "luck" 9 = (mkAbilities 1 5 9 5 5 5 5, None)
  ∧ pointsPool (mkAbilities 1 5 9 5 5 5 5) = 5 - (9 - 5).
Proof.
  assert (receivable NewDefaultAbilities) as Hrecv by constructor.
  assert (budget_ok NewDefaultAbilities) as Hb
    by (unfold budget_ok, attrs_in_range; simpl;
        unfold DefaultAbilityValue, AbilityPointBudget; lia).
  split; [reflexivity|].
  exact (proj1 (proj2 (proj2 (SetAbility_contract NewDefaultAbilities "luck" 9
                                Hrecv Hb eq_refl) _ eq_refl))).
Defined.

(** X5. The contract of [AddToAbility] on a known name, for a state a program
    can hold with its attributes in range: it succeeds exactly when the sum
    is in [1,10] and the pool covers the delta; then the attribute has
    moved by the delta, the pool has paid it (a negative delta is refunded)
    and stays non-negative, and no other attribute moved. *)
Theorem AddToAbility_contract (a : Abilities) (name : string) (d : Z) :
  receivable a → budget_ok a → known_name name = true → goint.is_int d →
  ((AddToAbility a name d).2 = None
   ↔ 1 ≤ getCurrentValue a name + d ≤ 10 ∧ d ≤ pointsPool a)
  ∧ (∀ a', AddToAbility a name d = (a', None) →
       getCurrentValue a' name = getCurrentValue a name + d
       ∧ pointsPool a' = pointsPool a - d
       ∧ 0 ≤ pointsPool a'
       ∧ ∀ other, other ≠ name →
           getCurrentValue a' other = getCurrentValue a other).
Proof.
  intros Hrecv Hb Hk Hd.
  pose proof (known_attr_in_range a name (proj1 Hb) Hk) as Hcur.
  destruct (add_in_range (getCurrentValue a name) d Hcur Hd) as [Hiff Hexact].
  pose proof (SetAbility_matches_add a name d) as [Hsame1 Hsame2].
  pose proof (SetAbility_cases a name
                (goint.add (getCurrentValue a name) d) Hrecv Hb Hk)
    as [Hset Heff].
  split; [split|].
  - intros E. apply Hsame2, Hset in E. destruct E as [Hr Hc].
    apply Hiff in Hr. rewrite (Hexact Hr) in Hc. lia.
  - intros [Hr Hc]. apply Hsame2, Hset. rewrite (Hexact Hr). lia.
  - intros a' E.
    assert ((AddToAbility a name d).2 = None) as E2 by (rewrite E; reflexivity).
    apply Hsame2 in E2.
    assert (SetAbility a name (goint.add (getCurrentValue a name) d) = (a', None))
      as Es.
    { destruct (SetAbility a name (goint.add (getCurrentValue a name) d))
        as [b o]. cbn in Hsame1, E2. rewrite E in Hsame1. cbn in Hsame1.
      subst. reflexivity. }
    pose proof (proj1 Hset (f_equal snd Es)) as [Hr _]. apply Hiff in Hr.
    destruct (Heff a' Es) as (Hv & Hp & Hpos & Hframe).
    rewrite (Hexact Hr) in Hv, Hp.
    split; [exact Hv|]. split; [lia|]. split; [exact Hpos|exact Hframe].
Qed.

Lemma AddToAbility_contract_witness :
  AddToAbility NewDefaultAbilities "agility" (-4)
    = (mkAbilities 9 5 5 5 1 5 5, None)
  ∧ pointsPool (mkAbilities 9 5 5 5 1 5 5) = 5 - -4.
Proof.
  assert (receivable NewDefaultAbilities) as Hrecv by constructor.
  assert (budget_ok NewDefaultAbilities) as Hb
    by (unfold budget_ok, attrs_in_range; simpl;
        unfold DefaultAbilityValue, AbilityPointBudget; lia).
  assert (goint.is_int (-4)) as Hd
    by (unfold goint.is_int, goint.int_min, goint.int_max; lia).
  split; [reflexivity|].
  exact (proj1 (proj2 (proj2 (AddToAbility_contract NewDefaultAbilities "agility"
                                (-4) Hrecv Hb eq_refl Hd) _ eq_refl))).
Defined.

Lemma assign_same a name :
  known_name name = true → assign a name (getCurrentValue a name) = Some a.
Proof.
  intros Hk. apply known_name_cases in Hk. destruct a.
  destruct Hk as [->|[->|[->|[->|[->| ->]]]]]; reflexivity.
Qed.

Lemma debit_debit_zero a k : debit (debit a k) 0 = debit a k.
Proof.
  destruct a. cbn. f_equal. unfold goint.sub.
  rewrite Z.sub_0_r. apply wrap_wrap.
Qed.

(** X6. Setting an attribute to the value it was just set to costs nothing and
    changes nothing: a successful [SetAbility] can be repeated. *)
Theorem SetAbility_idempotent (a a' : Abilities) (name : string) (v : Z) :
  SetAbility a name v = (a', None) → SetAbility a' name v = (a', None).
Proof.
  intros E.
  destruct (SetAbility_success a name v a' E) as (Hv & a1 & Ha & Hdeb & _).
  destruct (assign_spec a name v a1 Ha) as (Hk & Hget & _ & _).
  set (pd := goint.sub (goint.sub v 5) (goint.sub (getCurrentValue a name) 5))
    in Hdeb.
  assert (getCurrentValue a' name = v) as Hcur
    by (rewrite Hdeb, (proj2 (debit_spec a1 pd)); exact Hget).
  unfold SetAbility, MinAbilityValue, MaxAbilityValue, DefaultAbilityValue.
  destruct (Z.ltb_spec v 1); [lia|].
  rewrite (Z.gtb_ltb v 10). destruct (Z.ltb_spec 10 v); [lia|].
  cbv zeta. rewrite Hcur.
  assert (goint.sub (goint.sub v 5) (goint.sub v 5) = 0) as ->
    by (unfold goint.sub at 1; rewrite Z.sub_diag; reflexivity).
  cbn [Z.gtb Z.compare andb].
  rewrite <- Hcur at 1. rewrite (assign_same a' name Hk).
  rewrite Hdeb. rewrite debit_debit_zero. reflexivity.
Qed.

Lemma SetAbility_idempotent_witness :
  SetAbility NewDefaultAbilities "charisma" 8
    = (mkAbilities 2 5 5 8 5 5 5, None)
  ∧ SetAbility (mkAbilities 2 5 5 8 5 5 5) "charisma" 8
    = (mkAbilities 2 5 5 8 5 5 5, None).
Proof.
  split; [reflexivity|].
  apply (SetAbility_idempotent NewDefaultAbilities _ "charisma" 8). reflexivity.
Defined.

(** X7. [ValidateAbilities] accepts exactly the values with every attribute in
    [1,10] (it does not look at the pool), so it accepts every value a
    program can hold except the zero value. *)
Theorem ValidateAbilities_accepts (a : Abilities) :
  (ValidateAbilities a = None ↔ attrs_in_range a)
  ∧ (receivable a → a ≠ zero → ValidateAbilities a = None).
Proof.
  assert (ValidateAbilities a = None ↔ attrs_in_range a) as Hiff.
  { unfold ValidateAbilities. rewrite first_out_of_range_None.
    unfold six_in_range, attrs_in_range. tauto. }
  split; [exact Hiff|].
  intros Hrecv Hnz. apply Hiff.
  destruct (receivable_budget a Hrecv) as [->|(Hb & _)]; [contradiction|].
  exact (proj1 Hb).
Qed.

(** X8. The map [GetAllAbilities] returns has the six names as keys, each with
    the value the switch of the mutators reads, and no other key. *)
Theorem GetAllAbilities_lookup (a : Abilities) (name : string) :
  GetAllAbilities a !! name
    = if known_name name then Some (getCurrentValue a name) else None.
Proof.
  destruct (known_name name) eqn:Hk.
  - apply known_name_cases in Hk. destruct a.
    destruct Hk as [->|[->|[->|[->|[->| ->]]]]]; reflexivity.
  - unfold known_name in Hk. rewrite !orb_false_iff, !String.eqb_neq in Hk.
    destruct Hk as (((((H1 & H2) & H3) & H4) & H5) & H6).
    unfold GetAllAbilities.
    rewrite !lookup_insert_ne by congruence. apply lookup_empty.
Qed.

End abilities_facts.

Section abilities_witnesses.
Import abilities.

Lemma AddToAbility_roundtrip_witness :
  well_typed NewDefaultAbilities
  ∧ AddToAbility NewDefaultAbilities "strength" 2
    = (mkAbilities 3 7 5 5 5 5 5, None)
  ∧ AddToAbility (mkAbilities 3 7 5 5 5 5 5) "strength" (goint.neg 2)
    = (NewDefaultAbilities, None)
  ∧ getCurrentValue NewDefaultAbilities "strength" = 5
  ∧ pointsPool NewDefaultAbilities = 5.
Proof.
  assert (well_typed NewDefaultAbilities) as Hwt.
  { unfold well_typed, goint.is_int, goint.int_min, goint.int_max. simpl.
    unfold DefaultAbilityValue, AbilityPointBudget. lia. }
  assert (AddToAbility NewDefaultAbilities "strength" 2
          = (mkAbilities 3 7 5 5 5 5 5, None)) as H1 by reflexivity.
  assert (AddToAbility (mkAbilities 3 7 5 5 5 5 5) "strength" (goint.neg 2)
          = (NewDefaultAbilities, None)) as H2 by reflexivity.
  split; [exact Hwt|]. split; [exact H1|]. split; [exact H2|].
  destruct (AddToAbility_roundtrip NewDefaultAbilities _ _ "strength" 2 Hwt H1 H2)
    as (Hv & Hp & _).
  split; [exact Hv | exact Hp].
Defined.

End abilities_witnesses.

Section inventory_facts.
Import inventory.

Lemma AddItem_stack inv item i x :
  first_at (same_stack item) inv i x →
  AddItem inv item =
    mkInventory
      (<[i := SetQuantity x (goint.add (quantity x) (quantity item))]> (Items inv)).
Proof.
  intros Hfirst. unfold AddItem.
  rewrite (proj2 (list_find_Some (same_stack item) (Items inv) i x) Hfirst).
  reflexivity.
Qed.

Lemma AddItem_append inv item :
  (∀ x, x ∈ Items inv → ¬ same_stack item x) →
  AddItem inv item = mkInventory (Items inv ++ [item]).
Proof.
  intros Hnone. unfold AddItem.
  rewrite (proj2 (list_find_None (same_stack item) (Items inv)));
    [reflexivity|].
  apply list.Forall_forall. exact Hnone.
Qed.

(** C5. [AddItem] merges the item into the first entry with its name and
    condition: that entry keeps its place and its other fields and its
    quantity becomes the Go sum of the two quantities (their sum, when that
    is an int), every other entry is as before and no entry is added; when
    no entry has the item's name and condition, the item is appended after
    the existing entries, which keep their order. *)
Theorem AddItem_contract (inv : Inventory) (item : Item) :
  (∀ i x, first_at (same_stack item) inv i x →
     Items (AddItem inv item)
       = <[i := SetQuantity x (goint.add (quantity x) (quantity item))]> (Items inv)
     ∧ length (Items (AddItem inv item)) = length (Items inv)
     ∧ (∀ j, j ≠ i → Items (AddItem inv item) !! j = Items inv !! j)
     ∧ (goint.is_int (quantity x + quantity item) →
        Items (AddItem inv item) !! i
          = Some (SetQuantity x (quantity x + quantity item))))
  ∧ ((∀ x, x ∈ Items inv → ¬ same_stack item x) →
     Items (AddItem inv item) = Items inv ++ [item]).
Proof.
  split.
  - intros i x Hfirst. rewrite (AddItem_stack inv item i x Hfirst). simpl.
    destruct Hfirst as (Hi & _ & _).
    split; [reflexivity|]. split; [apply length_insert|].
    split.
    + intros j Hj. apply list_lookup_insert_ne. congruence.
    + intros Hsum. unfold goint.add. rewrite (wrap_id _ Hsum).
      apply list_lookup_insert_eq. eapply lookup_lt_Some, Hi.
  - intros Hnone. rewrite (AddItem_append inv item Hnone). reflexivity.
Qed.

Lemma AddItem_contract_witness :
  Items (AddItem (mkInventory [mkItem "Sword" 1 None "New" "sharp";
                               mkItem "Rope" 2 None "New" ""])
                 (mkItem "Rope" 3 None "New" "hemp"))
    = [mkItem "Sword" 1 None "New" "sharp"; mkItem "Rope" 5 None "New" ""]
  ∧ Items (AddItem (mkInventory [mkItem "Sword" 1 None "New" "sharp"])
                   (mkItem "Sword" 1 None "Rusty" ""))
    = [mkItem "Sword" 1 None "New" "sharp"; mkItem "Sword" 1 None "Rusty" ""].
Proof.
  split.
  - refine (proj1 (proj1 (AddItem_contract _ _) 1%nat
                     (mkItem "Rope" 2 None "New" "") _)).
    split; [reflexivity|]. split; [split; reflexivity|].
    intros [|[|j]] y Hy Hlt; [|lia..].
    injection Hy as <-. intros [Hn _]. discriminate Hn.
  - refine (proj2 (AddItem_contract _ _) _).
    intros x Hx [Hn Hc]. apply list_elem_of_singleton in Hx. subst x.
    discriminate Hc.
Defined.

(** X11. Two calls with the same name and condition, on an inventory that has
    no such entry, leave one new entry with the Go sum of the quantities. *)
Lemma AddItem_twice inv item1 item2 :
  (∀ x, x ∈ Items inv → ¬ same_stack item1 x) →
  Name item2 = Name item1 → condition item2 = condition item1 →
  AddItem (AddItem inv item1) item2
    = mkInventory
        (Items inv
           ++ [SetQuantity item1 (goint.add (quantity item1) (quantity item2))]).
Proof.
  intros Hnone Hn Hc. rewrite (AddItem_append inv item1 Hnone).
  rewrite (AddItem_stack _ item2 (length (Items inv)) item1).
  - simpl. f_equal.
    replace (length (Items inv)) with (length (Items inv) + 0)%nat at 1 by lia.
    rewrite insert_app_r. reflexivity.
  - split; [|split].
    + simpl. apply list_lookup_middle. reflexivity.
    + split; congruence.
    + simpl. intros j y Hy Hlt [Hyn Hyc].
      rewrite lookup_app_l in Hy by exact Hlt.
      apply (Hnone y); [eapply list_elem_of_lookup_2, Hy|].
      split; congruence.
Qed.

Lemma sub_eq_zero q r :
  goint.is_int q → goint.is_int r → goint.sub q r = 0 ↔ q = r.
Proof.
  intros Hq Hr. unfold goint.sub. split.
  - destruct (wrap_offset (q - r)) as [k ->].
    unfold goint.is_int, goint.int_min, goint.int_max in *.
    change (2 ^ 64) with 18446744073709551616. lia.
  - intros ->. rewrite Z.sub_diag. reflexivity.
Qed.

Lemma RemoveItem_found inv name qty i x :
  first_at (λ y, Name y = name) inv i x →
  RemoveItem inv name qty =
    if quantity x <? qty
    then (inv, Some (ErrInsufficientQuantity (quantity x) qty))
    else if goint.sub (quantity x) qty =? 0
         then (mkInventory (delete i (Items inv)), None)
         else (mkInventory
                 (<[i := SetQuantity x (goint.sub (quantity x) qty)]> (Items inv)),
               None).
Proof.
  intros Hfirst. unfold RemoveItem.
  rewrite (proj2 (list_find_Some (λ y, Name y = name) (Items inv) i x) Hfirst).
  reflexivity.
Qed.

(** C6. [RemoveItem] answers not-found, with the inventory as it was, when
    no entry has the name; at the first entry with the name it answers
    insufficient-quantity, with the inventory as it was, when the entry
    holds less than requested; it deletes the entry when the request is
    the whole quantity; otherwise the entry stays in place with its
    quantity lowered by the request (Go's subtraction, which is the exact
    difference for a request that is not negative). *)
Theorem RemoveItem_contract (inv : Inventory) (name : string) (qty : Z) :
  ((∀ x, x ∈ Items inv → Name x ≠ name) →
     RemoveItem inv name qty = (inv, Some (ErrItemNotFound name)))
  ∧ (∀ i x, first_at (λ y, Name y = name) inv i x →
       goint.is_int (quantity x) → goint.is_int qty →
       (quantity x < qty →
          RemoveItem inv name qty
            = (inv, Some (ErrInsufficientQuantity (quantity x) qty)))
       ∧ (quantity x = qty →
          RemoveItem inv name qty = (mkInventory (delete i (Items inv)), None))
       ∧ (qty < quantity x →
          RemoveItem inv name qty
            = (mkInventory
                 (<[i := SetQuantity x (goint.sub (quantity x) qty)]> (Items inv)),
               None)
          ∧ goint.sub (quantity x) qty ≠ 0
          ∧ (0 ≤ qty → goint.sub (quantity x) qty = quantity x - qty))).
Proof.
  split.
  - intros Hnone. unfold RemoveItem.
    rewrite (proj2 (list_find_None (λ y, Name y = name) (Items inv)));
      [reflexivity|].
    apply list.Forall_forall. exact Hnone.
  - intros i x Hfirst Hq Hqty.
    rewrite (RemoveItem_found inv name qty i x Hfirst).
    pose proof (sub_eq_zero (quantity x) qty Hq Hqty) as Hz.
    split; [|split].
    + intros Hlt. destruct (Z.ltb_spec (quantity x) qty); [reflexivity|lia].
    + intros Heq. destruct (Z.ltb_spec (quantity x) qty); [lia|].
      destruct (Z.eqb_spec (goint.sub (quantity x) qty) 0); [reflexivity|tauto].
    + intros Hgt. destruct (Z.ltb_spec (quantity x) qty); [lia|].
      destruct (Z.eqb_spec (goint.sub (quantity x) qty) 0) as [E|E];
        [apply Hz in E; lia|].
      split; [reflexivity|]. split; [exact E|].
      intros Hpos. unfold goint.sub. apply wrap_id.
      unfold goint.is_int, goint.int_min, goint.int_max in *. lia.
Qed.

Lemma RemoveItem_contract_witness :
  RemoveItem (mkInventory [mkItem "Sword" 1 None "New" "";
                           mkItem "Arrow" 20 None "New" ""]) "Arrow" 5
    = (mkInventory [mkItem "Sword" 1 None "New" "";
                    mkItem "Arrow" 15 None "New" ""], None)
  ∧ RemoveItem (mkInventory [mkItem "Sword" 1 None "New" "";
                             mkItem "Arrow" 20 None "New" ""]) "Arrow" 20
    = (mkInventory [mkItem "Sword" 1 None "New" ""], None)
  ∧ RemoveItem (mkInventory [mkItem "Sword" 1 None "New" "";
                             mkItem "Arrow" 20 None "New" ""]) "Arrow" 21
    = (mkInventory [mkItem "Sword" 1 None "New" "";
                    mkItem "Arrow" 20 None "New" ""],
       Some (ErrInsufficientQuantity 20 21)).
Proof.
  assert (first_at (λ y, Name y = "Arrow"%string)
            (mkInventory [mkItem "Sword" 1 None "New" "";
                          mkItem "Arrow" 20 None "New" ""])
            1%nat (mkItem "Arrow" 20 None "New" "")) as Hfirst.
  { split; [reflexivity|]. split; [reflexivity|].
    intros [|[|j]] y Hy Hlt; [|lia..].
    injection Hy as <-. discriminate. }
  assert (∀ z, 0 ≤ z ≤ 100 → goint.is_int z) as Hint
    by (intros z Hz; unfold goint.is_int, goint.int_min, goint.int_max; lia).
  split; [|split].
  - refine (proj1 (proj2 (proj2 (proj2 (RemoveItem_contract _ "Arrow" 5) _ _ Hfirst _ _)) _));
      simpl; try apply Hint; lia.
  - refine (proj1 (proj2 (proj2 (RemoveItem_contract _ "Arrow" 20) _ _ Hfirst _ _)) _);
      simpl; try apply Hint; lia.
  - refine (proj1 (proj2 (RemoveItem_contract _ "Arrow" 21) _ _ Hfirst _ _) _);
      simpl; try apply Hint; lia.
Defined.

(** *** ChangeItem *)

Lemma listed_cons (g f : string) (rest : list string) :
  bool_decide (g ∈ f :: rest) = String.eqb g f || bool_decide (g ∈ rest).
Proof.
  destruct (String.eqb_spec g f) as [->|Hne]; simpl.
  - apply bool_decide_eq_true. left.
  - apply bool_decide_ext. rewrite elem_of_cons. tauto.
Qed.

Lemma contract_item_nil item newVal : contract_item item [] newVal = item.
Proof. destruct item, newVal; reflexivity. Qed.

(** One known field more at the front of the list: the loop's first
    iteration, then the contract on the rest, is the contract on the whole
    list. *)
Lemma contract_item_cons item item' field rest newVal :
  change_field item field newVal = Some item' →
  contract_item item' rest newVal = contract_item item (field :: rest) newVal.
Proof.
  unfold change_field.
  repeat match goal with
         | |- context [String.eqb field ?s] =>
             destruct (String.eqb_spec field s) as [->|?]
         end;
    intros [= <-] || (intros; discriminate);
    destruct item, newVal; unfold contract_item; simpl;
    rewrite ?listed_cons; simpl;
    repeat match goal with
           | |- context [bool_decide ?P] => destruct (bool_decide P)
           end;
    reflexivity.
Qed.

Lemma change_field_known item field newVal :
  known_field field = true → is_Some (change_field item field newVal).
Proof.
  unfold known_field, change_field.
  repeat match goal with
         | |- context [String.eqb field ?s] => destruct (String.eqb field s)
         end; simpl; intros; try discriminate; eexists; reflexivity.
Qed.

Lemma change_field_unknown item field newVal :
  known_field field = false → change_field item field newVal = None.
Proof.
  unfold known_field, change_field.
  repeat match goal with
         | |- context [String.eqb field ?s] => destruct (String.eqb field s)
         end; simpl; intros; try discriminate; reflexivity.
Qed.

Lemma change_fields_all_known fields : ∀ item newVal,
  forallb known_field fields = true →
  change_fields item fields newVal = (contract_item item fields newVal, true).
Proof.
  induction fields as [|field rest IH]; intros item newVal Hk; simpl.
  - rewrite contract_item_nil. reflexivity.
  - simpl in Hk. apply andb_true_iff in Hk as [Hf Hrest].
    destruct (change_field_known item field newVal Hf) as [item' Hc].
    rewrite Hc, (IH item' newVal Hrest).
    rewrite (contract_item_cons item item' field rest newVal Hc). reflexivity.
Qed.

Lemma change_fields_some_unknown fields : ∀ item newVal,
  forallb known_field fields = false →
  (change_fields item fields newVal).2 = false.
Proof.
  induction fields as [|field rest IH]; intros item newVal Hk; simpl in *.
  - discriminate.
  - destruct (known_field field) eqn:Hf; simpl in Hk.
    + destruct (change_field_known item field newVal Hf) as [item' ->].
      apply IH, Hk.
    + rewrite (change_field_unknown item field newVal Hf). reflexivity.
Qed.

Lemma GetItem_nonempty inv name i item :
  GetItem inv name = Some (i, item) → (length (Items inv) =? 0)%nat = false.
Proof.
  unfold GetItem. destruct (Items inv); [discriminate|reflexivity].
Qed.

(** C7. When the inventory has an entry with the name and every listed
    field is one of the five, [ChangeItem] replaces the first such entry
    by the entry the contract describes (a field takes the new value iff
    it is listed and the value has the field's type, a listed field of
    another type is skipped without an error) and returns the pointer to
    it; every other entry is untouched.  When some listed field is not one
    of the five, the call returns nil, whatever the inventory. *)
Theorem ChangeItem_contract (inv : Inventory) (name : string)
    (fields : list string) (newVal : any) :
  (∀ i item, GetItem inv name = Some (i, item) →
     forallb known_field fields = true →
     ChangeItem inv name fields newVal
       = (mkInventory (<[i := contract_item item fields newVal]> (Items inv)),
          Some i))
  ∧ (forallb known_field fields = false →
     (ChangeItem inv name fields newVal).2 = None).
Proof.
  split.
  - intros i item Hget Hk. unfold ChangeItem.
    rewrite (GetItem_nonempty inv name i item Hget), Hget.
    rewrite (change_fields_all_known fields item newVal Hk). reflexivity.
  - intros Hk. unfold ChangeItem.
    destruct (length (Items inv) =? 0)%nat; [reflexivity|].
    destruct (GetItem inv name) as [[i item]|]; [|reflexivity].
    pose proof (change_fields_some_unknown fields item newVal Hk) as Hf.
    destruct (change_fields item fields newVal) as [item' finished].
    simpl in Hf. subst finished. reflexivity.
Qed.

Lemma ChangeItem_contract_witness :
  ChangeItem (mkInventory [mkItem "Sword" 1 None "New" "sharp"]) "Sword"
             ["quantity"; "description"; "name"]%string (VString "Blade")
    = (mkInventory [mkItem "Blade" 1 None "New" "Blade"], Some 0%nat)
  ∧ (ChangeItem (mkInventory [mkItem "Sword" 1 None "New" "sharp"]) "Sword"
                ["quantity"; "weight"]%string (VInt 3)).2 = None.
Proof.
  split.
  - refine (proj1 (ChangeItem_contract _ "Sword" _ (VString "Blade"))
              0%nat (mkItem "Sword" 1 None "New" "sharp") _ _);
      reflexivity.
  - refine (proj2 (ChangeItem_contract _ "Sword" _ (VInt 3)) _).
    reflexivity.
Defined.

(** X19. What the nil answer leaves behind: the fields listed before the first
    unknown one have already been written through the pointer. *)
Lemma ChangeItem_abort_effect inv name before bad after newVal i item :
  GetItem inv name = Some (i, item) →
  forallb known_field before = true → known_field bad = false →
  ChangeItem inv name (before ++ bad :: after) newVal
    = (mkInventory (<[i := contract_item item before newVal]> (Items inv)),
       None).
Proof.
  intros Hget Hk Hbad. unfold ChangeItem.
  rewrite (GetItem_nonempty inv name i item Hget), Hget.
  assert (∀ it, forallb known_field before = true →
            change_fields it (before ++ bad :: after) newVal
            = (contract_item it before newVal, false)) as Hloop.
  { clear -Hbad. induction before as [|f rest IH]; intros it Hk; simpl.
    - rewrite (change_field_unknown it bad newVal Hbad), contract_item_nil.
      reflexivity.
    - simpl in Hk. apply andb_true_iff in Hk as [Hf Hrest].
      destruct (change_field_known it f newVal Hf) as [it' Hc].
      rewrite Hc, (IH it' Hrest).
      rewrite (contract_item_cons it it' f rest newVal Hc). reflexivity. }
  rewrite (Hloop item Hk). reflexivity.
Qed.

Example ChangeItem_abort_example :
  ChangeItem (mkInventory [mkItem "Sword" 1 None "New" "sharp"]) "Sword"
             ["quantity"; "weight"]%string (VInt 3)
    = (mkInventory [mkItem "Sword" 3 None "New" "sharp"], None).
Proof. reflexivity. Qed.

End inventory_facts.

Section character_facts.
Import character.

(** C8, as the code has it.  Given the empty string, the setters of name,
    class and condition return the character as it was: the field keeps its
    value, no other field changes, and there is no error to return (the
    setters have no result).  The test is [!= ""], with no trimming. *)
Theorem setters_ignore_empty (c : Character) :
  SetName c "" = c
  ∧ SetClass c "" = c
  ∧ SetCondition c (condition.NewCondition "") = c.
Proof. repeat split. Qed.

(** X23. A value that is not the empty string is stored, and only in its field. *)
Lemma setters_store_nonempty (c : Character) (v : string) :
  v ≠ ""%string →
  SetName c v
    = mkCharacter (race c) v (class c) (abilities c) (inventory c)
                  (condition c) (manaPoints c)
  ∧ SetClass c v
    = mkCharacter (race c) (name c) v (abilities c) (inventory c)
                  (condition c) (manaPoints c)
  ∧ SetCondition c (condition.NewCondition v)
    = mkCharacter (race c) (name c) (class c) (abilities c) (inventory c)
                  v (manaPoints c).
Proof.
  intros Hv. unfold SetName, SetClass, SetCondition, condition.String,
    condition.NewCondition.
  destruct (String.eqb_spec v "") as [->|_]; [contradiction|]. auto.
Qed.

(** The test is [!= ""]: a name of spaces only is not empty and is stored. *)
Example SetName_spaces (c : Character) : name (SetName c "  ") = "  "%string.
Proof. reflexivity. Qed.

(** C8 as stated fails for a blank value: a single space is not the empty
    string, so each of the three setters stores it in place of the value
    the character had. *)
Lemma setters_store_blank :
  name (NewDefaultCharacter "Elf" "Aria" "Mage") = "Aria"%string
  ∧ name (SetName (NewDefaultCharacter "Elf" "Aria" "Mage") " ") = " "%string
  ∧ SetName (NewDefaultCharacter "Elf" "Aria" "Mage") " "
    ≠ NewDefaultCharacter "Elf" "Aria" "Mage"
  ∧ class (SetClass (NewDefaultCharacter "Elf" "Aria" "Mage") " ") = " "%string
  ∧ SetClass (NewDefaultCharacter "Elf" "Aria" "Mage") " "
    ≠ NewDefaultCharacter "Elf" "Aria" "Mage"
  ∧ condition
      (SetCondition (NewDefaultCharacter "Elf" "Aria" "Mage")
         (condition.NewCondition " ")) = " "%string
  ∧ SetCondition (NewDefaultCharacter "Elf" "Aria" "Mage")
      (condition.NewCondition " ")
    ≠ NewDefaultCharacter "Elf" "Aria" "Mage".
Proof. repeat split; try reflexivity; discriminate. Qed.

(** C9. [NewCharacter] has no failing path: for every argument it returns
    a character holding the six arguments, whose manaPoints is Go's
    [intelligence * 50]; that is the product itself whenever the product
    is an int, so for every intelligence in [1,10], and 400 for 8. *)
Theorem NewCharacter_manaPoints (r n cl : string)
    (abs : abilities.Abilities) (inv : inventory.Inventory)
    (cond : condition.Condition) :
  NewCharacter r n cl abs inv cond
    = mkCharacter r n cl abs inv cond
        (goint.mul (abilities.intelligence abs) 50)
  ∧ (goint.is_int (abilities.intelligence abs * 50) →
     manaPoints (NewCharacter r n cl abs inv cond)
       = abilities.intelligence abs * 50)
  ∧ (1 ≤ abilities.intelligence abs ≤ 10 →
     manaPoints (NewCharacter r n cl abs inv cond)
       = abilities.intelligence abs * 50)
  ∧ (abilities.intelligence abs = 8 →
     manaPoints (NewCharacter r n cl abs inv cond) = 400).
Proof.
  split; [reflexivity|]. simpl. unfold abilities.GetIntelligence, goint.mul.
  split; [intros Hi; apply wrap_id, Hi|].
  split.
  - intros Hi. apply wrap_id.
    unfold goint.is_int, goint.int_min, goint.int_max. lia.
  - intros ->. reflexivity.
Qed.

Lemma NewCharacter_manaPoints_witness :
  manaPoints
    (NewCharacter "Elf" "Aria" "Mage" (abilities.mkAbilities 0 7 5 5 5 5 8)
                  (inventory.mkInventory []) "Healthy") = 400.
Proof.
  refine (proj2 (proj2 (proj2
    (NewCharacter_manaPoints "Elf" "Aria" "Mage"
       (abilities.mkAbilities 0 7 5 5 5 5 8) (inventory.mkInventory [])
       "Healthy"))) _).
  reflexivity.
Defined.

(** The request of the end-to-end example, run through the constructors
    the handler calls: the stored character has 400 mana points and one
    inventory entry, named Sword. *)
Example create_character_example :
  ∃ abs item,
    abilities.NewAbilities 7 5 5 5 5 8 = (abs, None)
    ∧ inventory.NewItem "Sword" 1 None (condition.NewCondition "New") ""
      = (item, None)
    ∧ manaPoints
        (NewCharacter "Elf" "Aria" "Mage" abs
           (inventory.AddItem inventory.NewInventory item)
           (condition.NewCondition "Healthy")) = 400
    ∧ inventory.Name
        <$> inventory.Items
              (inventory
                 (NewCharacter "Elf" "Aria" "Mage" abs
                    (inventory.AddItem inventory.NewInventory item)
                    (condition.NewCondition "Healthy")))
      = ["Sword"%string].
Proof. do 2 eexists. repeat split. Qed.

End character_facts.

Section inventory_more.
Import inventory.

(** *** NewItem *)

Lemma first_bad_item_ability_Forall entries :
  first_bad_item_ability entries = None
  ↔ Forall (λ entry, entry.2 = 0 ∨ 1 ≤ entry.2 ≤ 4) entries.
Proof.
  induction entries as [|[name value] rest IH]; cbn.
  - split; [constructor|reflexivity].
  - unfold MinItemAbilityValue, MaxItemAbilityValue.
    rewrite list.Forall_cons. cbn. rewrite <- IH.
    destruct (Z.eqb_spec value 0); cbn; [tauto|].
    rewrite (Z.gtb_ltb value 4).
    destruct (Z.ltb_spec value 1); cbn; [split; [discriminate|lia]|].
    destruct (Z.ltb_spec 4 value); cbn; [split; [discriminate|lia]|].
    split; [intros ->; split; [lia|reflexivity]|tauto].
Qed.

Lemma first_bad_item_ability_None a :
  first_bad_item_ability
    (abilities.named_values
       (abilities.strength a) (abilities.luck a) (abilities.charisma a)
       (abilities.agility a) (abilities.perception a)
       (abilities.intelligence a)) = None
  ↔ item_abilities_ok a.
Proof.
  rewrite first_bad_item_ability_Forall.
  unfold abilities.named_values, item_abilities_ok.
  rewrite !list.Forall_cons, list.Forall_nil. cbn. tauto.
Qed.

Lemma NewItem_cases (name : string) (qty : Z)
    (abs : option abilities.Abilities) (cond : condition.Condition)
    (description : string) :
  ((NewItem name qty abs cond description).2 = None
   ↔ 0 < qty ∧ ∀ a, abs = Some a → item_abilities_ok a)
  ∧ (∀ item, NewItem name qty abs cond description = (item, None) →
       item = mkItem name qty abs cond description)
  ∧ (is_Some (NewItem name qty abs cond description).2 →
       (NewItem name qty abs cond description).1 = zeroItem).
Proof.
  unfold NewItem. destruct (Z.leb_spec qty 0) as [Hq|Hq].
  { cbn. split; [split; [discriminate|lia]|]. split; [discriminate|reflexivity]. }
  destruct abs as [a|].
  - pose proof (first_bad_item_ability_None a) as Hok.
    destruct (first_bad_item_ability _) as [e|]; cbn.
    + split; [split; [discriminate|]|split; [discriminate|reflexivity]].
      intros [_ Ha]. specialize (Ha a eq_refl). apply Hok in Ha. discriminate.
    + split; [split; [intros _|reflexivity]|].
      * split; [lia|]. intros a' [= <-]. apply Hok. reflexivity.
      * split; [intros item [= <-]; reflexivity|]. intros [e He]. discriminate.
  - cbn. split; [split; [intros _|reflexivity]|].
    + split; [lia|]. discriminate.
    + split; [intros item [= <-]; reflexivity|]. intros [e He]. discriminate.
Qed.

(** X9. [NewItem] succeeds exactly when the quantity is positive and the
    abilities, if given, have every attribute 0 or in [1,4]; the item then
    holds the five arguments.  On failure the zero item is returned. *)
Theorem NewItem_contract (name : string) (qty : Z)
    (abs : option abilities.Abilities) (cond : condition.Condition)
    (description : string) :
  ((NewItem name qty abs cond description).2 = None
   ↔ 0 < qty ∧ ∀ a, abs = Some a → item_abilities_ok a)
  ∧ (∀ item, NewItem name qty abs cond description = (item, None) →
       item = mkItem name qty abs cond description)
  ∧ (is_Some (NewItem name qty abs cond description).2 →
       (NewItem name qty abs cond description).1 = zeroItem).
Proof. exact (NewItem_cases name qty abs cond description). Qed.

(** X10. Abilities that [NewAbilities] accepts are never accepted on an item:
    six attributes in [1,10] summing to 35 cannot all be at most 4.  The
    create handler builds item abilities with [NewAbilities], so it cannot
    build an item that has abilities. *)
Theorem NewItem_rejects_NewAbilities (s l c a p i : Z)
    (ab : abilities.Abilities) (name : string) (qty : Z)
    (cond : condition.Condition) (description : string) :
  abilities.NewAbilities s l c a p i = (ab, None) →
  is_Some (NewItem name qty (Some ab) cond description).2.
Proof.
  intros Hnew.
  destruct (NewItem name qty (Some ab) cond description).2 as [e|] eqn:E;
    [eexists; reflexivity|exfalso].
  apply (proj1 (NewItem_cases name qty (Some ab) cond description)) in E.
  destruct E as [_ Hok]. specialize (Hok ab eq_refl).
  destruct (six_in_range_dec s l c a p i) as [Hr|Hr].
  - rewrite (NewAbilities_in_range _ _ _ _ _ _ Hr) in Hnew.
    destruct (Z.eqb_spec (s + l + c + a + p + i) 35) as [Es|Es];
      cbn in Hnew; [|discriminate].
    injection Hnew as <-.
    unfold item_abilities_ok in Hok. cbn in Hok.
    unfold abilities.six_in_range in Hr. lia.
  - destruct (NewAbilities_out_of_range _ _ _ _ _ _ Hr) as [e He].
    rewrite He in Hnew. discriminate.
Qed.

Lemma NewItem_rejects_NewAbilities_witness :
  abilities.NewAbilities 7 5 5 5 5 8 = (abilities.mkAbilities 0 7 5 5 5 5 8, None)
  ∧ is_Some (NewItem "Ring" 1 (Some (abilities.mkAbilities 0 7 5 5 5 5 8))
               "New" "").2.
Proof.
  split; [reflexivity|].
  apply (NewItem_rejects_NewAbilities 7 5 5 5 5 8). reflexivity.
Defined.

(** *** The stacking invariant *)

(** Replacing an entry by one with the same name and condition keeps every
    index's name and condition. *)
Lemma insert_same_stack (items : list Item) i x x' j y :
  items !! i = Some x → Name x' = Name x → condition x' = condition x →
  <[i := x']> items !! j = Some y →
  ∃ z, items !! j = Some z ∧ Name z = Name y ∧ condition z = condition y.
Proof.
  intros Hi Hn Hc Hj. apply list_lookup_insert_Some in Hj.
  destruct Hj as [(<- & <- & _)|[_ Hj]]; eauto.
Qed.

Lemma AddItem_unique_step (inv : Inventory) (item : Item) :
  unique_stacks inv → unique_stacks (AddItem inv item).
Proof.
  intros Huniq. unfold AddItem.
  destruct (list_find (same_stack item) (Items inv)) as [[i x]|] eqn:Hfind.
  - apply list_find_Some in Hfind as (Hi & _ & _).
    intros j1 j2 y1 y2 H1 H2 Hn Hc. cbn in H1, H2.
    eapply insert_same_stack in H1 as (z1 & Hz1 & Hn1 & Hc1);
      [|exact Hi|reflexivity..].
    eapply insert_same_stack in H2 as (z2 & Hz2 & Hn2 & Hc2);
      [|exact Hi|reflexivity..].
    apply (Huniq j1 j2 z1 z2 Hz1 Hz2); congruence.
  - apply list_find_None in Hfind.
    rewrite list.Forall_forall in Hfind.
    intros j1 j2 y1 y2 H1 H2 Hn Hc. cbn in H1, H2.
    apply lookup_app_Some in H1, H2.
    destruct H1 as [H1|[Hl1 H1]], H2 as [H2|[Hl2 H2]].
    + exact (Huniq j1 j2 y1 y2 H1 H2 Hn Hc).
    + apply list_lookup_singleton_Some in H2 as [_ <-].
      exfalso. apply (Hfind y1); [eapply list_elem_of_lookup_2, H1|].
      split; assumption.
    + apply list_lookup_singleton_Some in H1 as [_ <-].
      exfalso. apply (Hfind y2); [eapply list_elem_of_lookup_2, H2|].
      split; congruence.
    + apply list_lookup_singleton_Some in H1 as [E1 _].
      apply list_lookup_singleton_Some in H2 as [E2 _]. lia.
Qed.

(** X12. [AddItem] keeps the invariant of the data model: if no two entries
    share a name and a condition before the call, none do after it. *)
Theorem AddItem_keeps_unique_stacks (inv : Inventory) (item : Item) :
  unique_stacks inv → unique_stacks (AddItem inv item).
Proof. exact (AddItem_unique_step inv item). Qed.

Lemma AddItem_keeps_unique_stacks_witness :
  unique_stacks NewInventory
  ∧ unique_stacks (AddItem NewInventory (mkItem "Sword" 1 None "New" "")).
Proof.
  assert (unique_stacks NewInventory) as H0
    by (intros i j x y Hx; discriminate Hx).
  split; [exact H0|]. apply AddItem_keeps_unique_stacks, H0.
Defined.

(** X13. [RemoveItem] keeps the invariant too, whether it fails, lowers a
    quantity or deletes the entry. *)
Theorem RemoveItem_keeps_unique_stacks (inv : Inventory) (name : string)
    (qty : Z) :
  unique_stacks inv → unique_stacks (RemoveItem inv name qty).1.
Proof.
  intros Huniq. unfold RemoveItem.
  destruct (list_find (λ x, Name x = name) (Items inv)) as [[i x]|] eqn:Hfind;
    [|exact Huniq].
  apply list_find_Some in Hfind as (Hi & _ & _).
  destruct (quantity x <? qty); [exact Huniq|]. cbv zeta.
  destruct (goint.sub (quantity x) qty =? 0).
  - intros j1 j2 y1 y2 H1 H2 Hn Hc. cbn in H1, H2.
    rewrite list_lookup_delete in H1, H2.
    pose proof (Huniq _ _ y1 y2 H1 H2 Hn Hc) as E.
    repeat case_decide; lia.
  - intros j1 j2 y1 y2 H1 H2 Hn Hc. cbn in H1, H2.
    eapply insert_same_stack in H1 as (z1 & Hz1 & Hn1 & Hc1);
      [|exact Hi|reflexivity..].
    eapply insert_same_stack in H2 as (z2 & Hz2 & Hn2 & Hc2);
      [|exact Hi|reflexivity..].
    apply (Huniq j1 j2 z1 z2 Hz1 Hz2); congruence.
Qed.

Lemma RemoveItem_keeps_unique_stacks_witness :
  unique_stacks (mkInventory [mkItem "Arrow" 20 None "New" ""])
  ∧ unique_stacks
      (RemoveItem (mkInventory [mkItem "Arrow" 20 None "New" ""]) "Arrow" 5).1.
Proof.
  assert (unique_stacks (mkInventory [mkItem "Arrow" 20 None "New" ""])) as H0.
  { intros [|i] [|j] x y Hx Hy; try discriminate; reflexivity. }
  split; [exact H0|]. apply RemoveItem_keeps_unique_stacks, H0.
Defined.

(** *** Total weight *)

Lemma quantity_sum_app l1 l2 :
  quantity_sum (l1 ++ l2) = quantity_sum l1 + quantity_sum l2.
Proof.
  unfold quantity_sum.
  induction l1 as [|x l1 IH]; cbn; [reflexivity|]. rewrite IH. lia.
Qed.

Lemma quantity_sum_insert (items : list Item) i x x' :
  items !! i = Some x →
  quantity_sum (<[i := x']> items) = quantity_sum items - quantity x + quantity x'.
Proof.
  unfold quantity_sum.
  revert i. induction items as [|y items IH]; intros [|i] Hi; try discriminate.
  - injection Hi as ->. cbn. lia.
  - change (<[S i := x']> (y :: items)) with (y :: <[i := x']> items).
    cbn [foldr]. rewrite (IH i Hi). lia.
Qed.

Lemma quantity_sum_delete (items : list Item) i x :
  items !! i = Some x →
  quantity_sum (delete i items) = quantity_sum items - quantity x.
Proof.
  unfold quantity_sum.
  revert i. induction items as [|y items IH]; intros [|i] Hi; try discriminate.
  - injection Hi as ->. cbn. lia.
  - change (delete (S i) (y :: items)) with (y :: delete i items).
    cbn [foldr]. rewrite (IH i Hi). lia.
Qed.

(** The loop of [GetTotalWeight] computes the sum of the quantities modulo
    2^64. *)
Lemma total_weight_loop (items : list Item) t :
  fold_left (λ total item, goint.add total (quantity item)) items (goint.wrap t)
  = goint.wrap (t + quantity_sum items).
Proof.
  unfold quantity_sum.
  revert t. induction items as [|x items IH]; intros t; cbn.
  - rewrite Z.add_0_r. reflexivity.
  - unfold goint.add at 2. rewrite wrap_add_l, IH. apply (f_equal goint.wrap); lia.
Qed.

Lemma GetTotalWeight_sum inv :
  GetTotalWeight inv = goint.wrap (quantity_sum (Items inv)).
Proof.
  unfold GetTotalWeight. change 0 with (goint.wrap 0) at 1.
  rewrite total_weight_loop. reflexivity.
Qed.

Lemma AddItem_weight_step (inv : Inventory) (item : Item) :
  GetTotalWeight (AddItem inv item)
    = goint.add (GetTotalWeight inv) (quantity item).
Proof.
  rewrite !GetTotalWeight_sum. unfold goint.add at 1. rewrite wrap_add_l.
  unfold AddItem.
  destruct (list_find (same_stack item) (Items inv)) as [[i x]|] eqn:Hfind; cbn.
  - apply list_find_Some in Hfind as (Hi & _ & _).
    rewrite (quantity_sum_insert _ i x _ Hi). cbn.
    unfold goint.add. rewrite wrap_add_r. apply (f_equal goint.wrap); lia.
  - rewrite quantity_sum_app. cbn. apply (f_equal goint.wrap); lia.
Qed.

(** X14. [AddItem] raises the total weight by the item's quantity (in Go's
    arithmetic), whether the item is stacked or appended. *)
Theorem AddItem_total_weight (inv : Inventory) (item : Item) :
  GetTotalWeight (AddItem inv item)
    = goint.add (GetTotalWeight inv) (quantity item).
Proof. exact (AddItem_weight_step inv item). Qed.

(** X15. A successful [RemoveItem] lowers the total weight by the requested
    quantity (in Go's arithmetic), whether the entry stays or is deleted. *)
Theorem RemoveItem_total_weight (inv inv' : Inventory) (name : string)
    (qty : Z) :
  RemoveItem inv name qty = (inv', None) →
  GetTotalWeight inv' = goint.sub (GetTotalWeight inv) qty.
Proof.
  rewrite !GetTotalWeight_sum. unfold goint.sub at 1. rewrite wrap_sub_l.
  unfold RemoveItem.
  destruct (list_find (λ x, Name x = name) (Items inv)) as [[i x]|] eqn:Hfind;
    [|discriminate].
  apply list_find_Some in Hfind as (Hi & _ & _).
  destruct (quantity x <? qty); [discriminate|]. cbv zeta.
  destruct (Z.eqb_spec (goint.sub (quantity x) qty) 0) as [Hz|Hz];
    intros [= <-]; cbn [Items].
  - rewrite (quantity_sum_delete _ i x Hi).
    replace (quantity_sum (Items inv) - qty)
      with (quantity_sum (Items inv) - quantity x + (quantity x - qty)) by lia.
    rewrite <- wrap_add_r. unfold goint.sub in Hz. rewrite Hz.
    apply (f_equal goint.wrap); lia.
  - rewrite (quantity_sum_insert _ i x _ Hi). cbn.
    unfold goint.sub. rewrite wrap_add_r. apply (f_equal goint.wrap); lia.
Qed.

Lemma RemoveItem_total_weight_witness :
  RemoveItem (mkInventory [mkItem "Sword" 1 None "New" "";
                           mkItem "Arrow" 20 None "New" ""]) "Arrow" 20
    = (mkInventory [mkItem "Sword" 1 None "New" ""], None)
  ∧ GetTotalWeight (mkInventory [mkItem "Sword" 1 None "New" ""])
    = goint.sub
        (GetTotalWeight (mkInventory [mkItem "Sword" 1 None "New" "";
                                      mkItem "Arrow" 20 None "New" ""])) 20.
Proof.
  split; [reflexivity|].
  apply (RemoveItem_total_weight _ _ "Arrow" 20). reflexivity.
Defined.

(** *** Lookups after updates *)

(** X16. When [RemoveItem] succeeds, [HasItem] had answered true for the same
    name and quantity. *)
Theorem RemoveItem_success_HasItem (inv inv' : Inventory) (name : string)
    (qty : Z) :
  RemoveItem inv name qty = (inv', None) → HasItem inv name qty = true.
Proof.
  unfold RemoveItem, HasItem.
  destruct (list_find (λ x, Name x = name) (Items inv)) as [[i x]|] eqn:Hfind;
    [|discriminate].
  apply list_find_Some in Hfind as (Hi & Hn & _).
  destruct (Z.ltb_spec (quantity x) qty); [discriminate|]. intros _.
  apply existsb_exists. exists x. split.
  - apply list_elem_of_In. eapply list_elem_of_lookup_2, Hi.
  - apply andb_true_iff. split; [apply String.eqb_eq, Hn|].
    apply Z.geb_le. lia.
Qed.

Lemma RemoveItem_success_HasItem_witness :
  RemoveItem (mkInventory [mkItem "Arrow" 20 None "New" ""]) "Arrow" 5
    = (mkInventory [mkItem "Arrow" 15 None "New" ""], None)
  ∧ HasItem (mkInventory [mkItem "Arrow" 20 None "New" ""]) "Arrow" 5 = true.
Proof.
  split; [reflexivity|].
  apply (RemoveItem_success_HasItem
           (mkInventory [mkItem "Arrow" 20 None "New" ""])
           (mkInventory [mkItem "Arrow" 15 None "New" ""]) "Arrow" 5).
  reflexivity.
Defined.

(** X17. After [AddItem], [GetItem] finds an entry with the item's name. *)
Theorem AddItem_then_GetItem (inv : Inventory) (item : Item) :
  ∃ i x, GetItem (AddItem inv item) (Name item) = Some (i, x)
         ∧ Name x = Name item.
Proof.
  assert (∃ z, z ∈ Items (AddItem inv item) ∧ Name z = Name item)
    as (z & Hz & Hn).
  { unfold AddItem.
    destruct (list_find (same_stack item) (Items inv)) as [[i x]|] eqn:Hfind.
    - apply list_find_Some in Hfind as (Hi & [Hx _] & _).
      exists (SetQuantity x (goint.add (quantity x) (quantity item))).
      split; [|exact Hx]. cbn.
      eapply list_elem_of_lookup_2, list_lookup_insert_eq, lookup_lt_Some, Hi.
    - exists item. split; [|reflexivity]. cbn.
      apply elem_of_app. right. apply list_elem_of_singleton. reflexivity. }
  unfold GetItem.
  destruct (list_find_elem_of (λ x, Name x = Name item) _ z Hz Hn)
    as [[i x] Hfind].
  exists i, x. split; [exact Hfind|].
  apply list_find_Some in Hfind. tauto.
Qed.

(** X18. Adding an item whose name is new and then removing its whole quantity
    gives back the inventory as it was. *)
Theorem AddItem_then_RemoveItem (inv : Inventory) (item : Item) :
  (∀ x, x ∈ Items inv → Name x ≠ Name item) →
  RemoveItem (AddItem inv item) (Name item) (quantity item) = (inv, None).
Proof.
  intros Hnew.
  rewrite (AddItem_append inv item)
    by (intros x Hx [Hn _]; exact (Hnew x Hx Hn)).
  unfold RemoveItem. cbn.
  rewrite (proj2 (list_find_Some (λ x, Name x = Name item)
                    (Items inv ++ [item]) (length (Items inv)) item)).
  - rewrite Z.ltb_irrefl. unfold goint.sub. rewrite Z.sub_diag.
    change (goint.wrap 0 =? 0) with true. cbv iota.
    replace (delete (length (Items inv)) (Items inv ++ [item]))
      with (Items inv ++ []) by (symmetry; apply delete_middle).
    rewrite app_nil_r. destruct inv. reflexivity.
  - split; [apply list_lookup_middle; reflexivity|]. split; [reflexivity|].
    intros j y Hy Hlt. rewrite lookup_app_l in Hy by exact Hlt.
    apply Hnew. eapply list_elem_of_lookup_2, Hy.
Qed.

Lemma AddItem_then_RemoveItem_witness :
  RemoveItem (AddItem (mkInventory [mkItem "Sword" 1 None "New" ""])
                      (mkItem "Rope" 3 None "New" "")) "Rope" 3
    = (mkInventory [mkItem "Sword" 1 None "New" ""], None).
Proof.
  apply (AddItem_then_RemoveItem (mkInventory [mkItem "Sword" 1 None "New" ""])
           (mkItem "Rope" 3 None "New" "")).
  intros x Hx. apply list_elem_of_singleton in Hx. subst x. discriminate.
Defined.

Lemma AddItem_twice_witness :
  AddItem (AddItem NewInventory (mkItem "Potion" 2 None "New" "red"))
          (mkItem "Potion" 3 None "New" "blue")
    = mkInventory [mkItem "Potion" 5 None "New" "red"].
Proof.
  apply (AddItem_twice NewInventory (mkItem "Potion" 2 None "New" "red")
           (mkItem "Potion" 3 None "New" "blue")); [|reflexivity..].
  intros x Hx. apply elem_of_nil in Hx. contradiction.
Defined.

Lemma ChangeItem_abort_effect_witness :
  ChangeItem (mkInventory [mkItem "Sword" 1 None "New" "sharp"]) "Sword"
             ["quantity"; "weight"; "name"]%string (VInt 3)
    = (mkInventory [mkItem "Sword" 3 None "New" "sharp"], None).
Proof.
  exact (ChangeItem_abort_effect
           (mkInventory [mkItem "Sword" 1 None "New" "sharp"]) "Sword"
           ["quantity"%string] "weight" ["name"%string] (VInt 3) 0%nat
           (mkItem "Sword" 1 None "New" "sharp") eq_refl eq_refl eq_refl).
Defined.

(** X20. [ChangeItem] never adds or removes an entry and writes to no entry but
    the first with the name; when no entry has the name, or the inventory is
    empty, it returns nil and the inventory as it was. *)
Theorem ChangeItem_frame (inv : Inventory) (name : string)
    (fields : list string) (newVal : any) :
  length (Items (ChangeItem inv name fields newVal).1) = length (Items inv)
  ∧ (∀ j, (∀ x, GetItem inv name ≠ Some (j, x)) →
       Items (ChangeItem inv name fields newVal).1 !! j = Items inv !! j)
  ∧ (GetItem inv name = None →
       ChangeItem inv name fields newVal = (inv, None)).
Proof.
  unfold ChangeItem.
  destruct (length (Items inv) =? 0)%nat eqn:Hlen.
  { repeat split. }
  destruct (GetItem inv name) as [[i item]|] eqn:Hget; [|repeat split].
  destruct (change_fields item fields newVal) as [item' finished]. cbn.
  split; [apply length_insert|]. split; [|discriminate].
  intros j Hj. apply list_lookup_insert_ne. intros ->. exact (Hj item eq_refl).
Qed.

Lemma GetTotalWeight_is_int inv :
  goint.wrap (GetTotalWeight inv) = GetTotalWeight inv.
Proof. rewrite GetTotalWeight_sum. apply wrap_wrap. Qed.

End inventory_more.

Section character_more.
Import character.

(** X21. [ValidateCharacter] accepts exactly the characters whose name, race and
    class are not empty and whose six attributes are in [1,10]; an empty
    field is reported before the abilities are looked at. *)
Theorem ValidateCharacter_accepts (c : Character) :
  (ValidateCharacter c = None
   ↔ name c ≠ ""%string ∧ race c ≠ ""%string ∧ class c ≠ ""%string
     ∧ abilities.attrs_in_range (abilities c))
  ∧ (name c = ""%string ∨ race c = ""%string ∨ class c = ""%string →
     ValidateCharacter c = Some ErrCharacterEmptyField).
Proof.
  unfold ValidateCharacter.
  destruct (String.eqb_spec (name c) "") as [Hn|Hn];
    [cbn; split; [split; [discriminate|tauto]|reflexivity]|].
  destruct (String.eqb_spec (race c) "") as [Hr|Hr];
    [cbn; split; [split; [discriminate|tauto]|reflexivity]|].
  destruct (String.eqb_spec (class c) "") as [Hc|Hc];
    [cbn; split; [split; [discriminate|tauto]|reflexivity]|].
  cbn [orb]. split; [|tauto].
  unfold abilities.ValidateAbilities. rewrite first_out_of_range_None.
  unfold abilities.six_in_range, abilities.attrs_in_range. tauto.
Qed.

(** X22. [NewDefaultCharacter] gives default abilities, an empty inventory, the
    condition Healthy and 250 mana points, and the result passes
    [ValidateCharacter] exactly when the three strings are not empty. *)
Theorem NewDefaultCharacter_contract (r n cl : string) :
  NewDefaultCharacter r n cl
    = mkCharacter r n cl abilities.NewDefaultAbilities
        (inventory.mkInventory []) "Healthy" 250
  ∧ (ValidateCharacter (NewDefaultCharacter r n cl) = None
     ↔ n ≠ ""%string ∧ r ≠ ""%string ∧ cl ≠ ""%string).
Proof.
  split; [reflexivity|].
  unfold ValidateCharacter. cbn [name race class abilities NewDefaultCharacter].
  destruct (String.eqb_spec n "") as [Hn|Hn]; [cbn; split; [discriminate|tauto]|].
  destruct (String.eqb_spec r "") as [Hr|Hr]; [cbn; split; [discriminate|tauto]|].
  destruct (String.eqb_spec cl "") as [Hc|Hc]; [cbn; split; [discriminate|tauto]|].
  cbn. tauto.
Qed.

Lemma setters_store_nonempty_witness :
  SetName (NewDefaultCharacter "Elf" "Aria" "Mage") "Bryn"
    = mkCharacter "Elf" "Bryn" "Mage" abilities.NewDefaultAbilities
        (inventory.mkInventory []) "Healthy" 250.
Proof.
  refine (proj1 (setters_store_nonempty
                   (NewDefaultCharacter "Elf" "Aria" "Mage") "Bryn" _)).
  discriminate.
Defined.

End character_more.

Section game_facts.
Import game.

(** What one item descriptor must be for the handler to accept it: no
    abilities and a positive quantity; the item is then the descriptor's
    four fields. *)
Lemma make_item_accepts (d : ItemDTO) (item : inventory.Item) :
  make_item d = inl item →
  ItemAbilities d = None ∧ 0 < Quantity d
  ∧ item = inventory.mkItem (ItemName d) (Quantity d) None
             (condition.NewCondition (ItemCondition d)) (Description d).
Proof.
  unfold make_item. destruct (ItemAbilities d) as [ad|].
  - unfold new_abilities.
    destruct (abilities.NewAbilities _ _ _ _ _ _) as [ab [e|]] eqn:Enew;
      [discriminate|].
    destruct (inventory.NewItem _ _ (Some ab) _ _) as [it [e|]] eqn:Eitem;
      [discriminate|].
    exfalso.
    pose proof (proj1 (proj1 (NewItem_cases _ _ _ _ _)) (f_equal snd Eitem))
      as [_ Hok].
    specialize (Hok ab eq_refl).
    destruct (six_in_range_dec (Strength ad) (Luck ad) (Charisma ad)
                (Agility ad) (Perception ad) (Intelligence ad)) as [Hr|Hr].
    + rewrite (NewAbilities_in_range _ _ _ _ _ _ Hr) in Enew.
      destruct (Z.eqb_spec (Strength ad + Luck ad + Charisma ad + Agility ad
                            + Perception ad + Intelligence ad) 35) as [Es|Es];
        cbn in Enew; [|discriminate].
      injection Enew as <-.
      unfold inventory.item_abilities_ok in Hok. cbn in Hok.
      unfold abilities.six_in_range in Hr. lia.
    + destruct (NewAbilities_out_of_range _ _ _ _ _ _ Hr) as [e He].
      rewrite He in Enew. discriminate.
  - destruct (inventory.NewItem _ _ None _ _) as [it [e|]] eqn:Eitem;
      [discriminate|].
    intros [= <-]. split; [reflexivity|].
    pose proof (proj1 (proj1 (NewItem_cases _ _ _ _ _)) (f_equal snd Eitem))
      as [Hq _].
    split; [exact Hq|].
    exact (proj1 (proj2 (NewItem_cases _ _ _ _ _)) it Eitem).
Qed.

(** What a list of descriptors must be for the loop to accept it, and what
    the loop then leaves: the stacking invariant, and a total weight raised
    by the quantities asked for. *)
Lemma add_items_accepts (items : list ItemDTO) :
  ∀ inv inv', add_items inv items = inl inv' →
    Forall (λ d, ItemAbilities d = None ∧ 0 < Quantity d) items
    ∧ (inventory.unique_stacks inv → inventory.unique_stacks inv')
    ∧ inventory.GetTotalWeight inv'
      = goint.wrap (inventory.GetTotalWeight inv
                    + foldr (λ d acc, Quantity d + acc) 0 items).
Proof.
  induction items as [|d rest IH]; intros inv inv' Hadd; cbn in Hadd.
  - injection Hadd as <-. split; [constructor|]. split; [tauto|].
    cbn [foldr]. rewrite Z.add_0_r, GetTotalWeight_is_int. reflexivity.
  - destruct (make_item d) as [item|r] eqn:Hmake; [|discriminate].
    destruct (make_item_accepts d item Hmake) as (Hab & Hq & Hitem).
    destruct (IH _ _ Hadd) as (Hrest & Huniq & Hweight).
    split; [constructor; [split; assumption|exact Hrest]|].
    split; [intros H; apply Huniq, AddItem_unique_step, H|].
    rewrite Hweight, AddItem_weight_step. unfold goint.add.
    rewrite wrap_add_l. cbn [foldr]. subst item. cbn [inventory.quantity].
    apply (f_equal goint.wrap). lia.
Qed.

(** X24. A request the create handler accepts has abilities in [1,10] that sum to
    35 and items without abilities and with positive quantities; the
    character built holds the request's strings, has no unspent points, has
    50 mana points per point of intelligence, and its inventory has no two
    entries with the same name and condition and weighs the Go sum of the
    quantities asked for. *)
Theorem create_character_accepts (req : CreateCharacterRequest)
    (c : character.Character) :
  create_character req = inl c →
  abilities.six_in_range (Strength (Abilities req)) (Luck (Abilities req))
    (Charisma (Abilities req)) (Agility (Abilities req))
    (Perception (Abilities req)) (Intelligence (Abilities req))
  ∧ Strength (Abilities req) + Luck (Abilities req) + Charisma (Abilities req)
    + Agility (Abilities req) + Perception (Abilities req)
    + Intelligence (Abilities req) = 35
  ∧ Forall (λ d, ItemAbilities d = None ∧ 0 < Quantity d) (InventoryItems req)
  ∧ character.race c = Race req ∧ character.name c = Name req
  ∧ character.class c = Class req ∧ character.condition c = Condition req
  ∧ abilities.pointsPool (character.abilities c) = 0
  ∧ character.manaPoints c = 50 * Intelligence (Abilities req)
  ∧ 50 ≤ character.manaPoints c ≤ 500
  ∧ inventory.unique_stacks (character.inventory c)
  ∧ inventory.GetTotalWeight (character.inventory c)
    = goint.wrap (foldr (λ d acc, Quantity d + acc) 0 (InventoryItems req)).
Proof.
  unfold create_character, new_abilities.
  destruct (abilities.NewAbilities _ _ _ _ _ _) as [ab [e|]] eqn:Enew;
    [discriminate|].
  destruct (add_items inventory.NewInventory (InventoryItems req))
    as [inv|r] eqn:Hadd; [|discriminate].
  intros [= <-].
  destruct (add_items_accepts _ _ _ Hadd) as (Hitems & Huniq & Hweight).
  set (d := Abilities req) in *.
  destruct (six_in_range_dec (Strength d) (Luck d) (Charisma d) (Agility d)
              (Perception d) (Intelligence d)) as [Hr|Hr].
  - rewrite (NewAbilities_in_range _ _ _ _ _ _ Hr) in Enew.
    destruct (Z.eqb_spec (Strength d + Luck d + Charisma d + Agility d
                          + Perception d + Intelligence d) 35) as [Es|Es];
      cbn in Enew; [|discriminate].
    injection Enew as <-.
    split; [exact Hr|]. split; [exact Es|]. split; [exact Hitems|].
    cbn [character.NewCharacter character.race character.name character.class
         character.condition character.abilities character.manaPoints
         character.inventory abilities.pointsPool abilities.GetIntelligence
         abilities.intelligence].
    unfold abilities.six_in_range in Hr.
    assert (goint.mul (Intelligence d) 50 = 50 * Intelligence d) as ->.
    { unfold goint.mul. rewrite wrap_id; [lia|].
      unfold goint.is_int, goint.int_min, goint.int_max. lia. }
    repeat (split; [first [reflexivity | lia]|]).
    split.
    + apply Huniq. intros i j x y Hx. discriminate Hx.
    + rewrite Hweight. reflexivity.
  - destruct (NewAbilities_out_of_range _ _ _ _ _ _ Hr) as [e He].
    rewrite He in Enew. discriminate.
Qed.

Lemma create_character_accepts_witness :
  create_character
    (mkRequest "Elf" "Aria" "Mage"
       [mkItemDTO "Sword" 1 "New" "" None]
       (mkAbilitiesDTO 7 5 5 5 5 8) "Healthy")
  = inl (character.mkCharacter "Elf" "Aria" "Mage"
           (abilities.mkAbilities 0 7 5 5 5 5 8)
           (inventory.mkInventory [inventory.mkItem "Sword" 1 None "New" ""])
           "Healthy" 400)
  ∧ character.manaPoints
      (character.mkCharacter "Elf" "Aria" "Mage"
         (abilities.mkAbilities 0 7 5 5 5 5 8)
         (inventory.mkInventory [inventory.mkItem "Sword" 1 None "New" ""])
         "Healthy" 400) = 50 * 8.
Proof.
  split; [reflexivity|].
  refine (proj1 (proj2 (proj2 (proj2 (proj2 (proj2 (proj2 (proj2 (proj2
    (create_character_accepts
       (mkRequest "Elf" "Aria" "Mage" [mkItemDTO "Sword" 1 "New" "" None]
          (mkAbilitiesDTO 7 5 5 5 5 8) "Healthy") _ _)))))))))).
  reflexivity.
Defined.

(** X25. A request with an item that carries abilities is always rejected: the
    handler validates them as character abilities (each in [1,10], sum 35)
    and [NewItem] then asks for each to be 0 or in [1,4]. *)
Theorem create_character_rejects_item_abilities (req : CreateCharacterRequest)
    (d : ItemDTO) :
  d ∈ InventoryItems req → is_Some (ItemAbilities d) →
  ∃ r, create_character req = inr r.
Proof.
  intros Hin [ad Had].
  destruct (create_character req) as [c|r] eqn:Hc; [exfalso|eauto].
  unfold create_character in Hc.
  destruct (new_abilities (Abilities req)) as [ab [e|]]; [discriminate|].
  destruct (add_items inventory.NewInventory (InventoryItems req))
    as [inv|r] eqn:Hadd; [|discriminate].
  destruct (add_items_accepts _ _ _ Hadd) as (Hitems & _).
  rewrite list.Forall_forall in Hitems.
  destruct (Hitems d Hin) as [Hnone _]. congruence.
Qed.

Lemma create_character_rejects_item_abilities_witness :
  ∃ r, create_character
         (mkRequest "Elf" "Aria" "Mage"
            [mkItemDTO "Ring" 1 "New" "" (Some (mkAbilitiesDTO 1 0 0 0 0 0))]
            (mkAbilitiesDTO 7 5 5 5 5 8) "Healthy") = inr r.
Proof.
  apply (create_character_rejects_item_abilities _
           (mkItemDTO "Ring" 1 "New" "" (Some (mkAbilitiesDTO 1 0 0 0 0 0)))).
  - apply list_elem_of_singleton. reflexivity.
  - eexists. reflexivity.
Defined.

(** X26. The create handler never touches the characters already stored; it
    appends one character per accepted request, in order, and stops at the
    first rejected request, whose successors are not looked at. *)
Theorem create_characters_batch (charReq : list CreateCharacterRequest) :
  ∀ characters,
    ∃ built,
      (create_characters characters charReq).1 = characters ++ built
      ∧ match (create_characters characters charReq).2 with
        | None =>
            Forall2 (λ req c, create_character req = inl c) charReq built
        | Some r =>
            ∃ accepted bad rest,
              charReq = accepted ++ bad :: rest
              ∧ Forall2 (λ req c, create_character req = inl c) accepted built
              ∧ create_character bad = inr r
        end.
Proof.
  induction charReq as [|req rest IH]; intros characters; cbn.
  - exists []. split; [rewrite app_nil_r; reflexivity|constructor].
  - destruct (create_character req) as [c|r] eqn:Hc.
    + destruct (IH (characters ++ [c])) as (built & Hstore & Hres).
      exists (c :: built). split.
      * rewrite Hstore, <- app_assoc. reflexivity.
      * destruct (create_characters (characters ++ [c]) rest).2 as [r|].
        -- destruct Hres as (accepted & bad & rest' & -> & Hacc & Hbad).
           exists (req :: accepted), bad, rest'.
           split; [reflexivity|]. split; [constructor; assumption|exact Hbad].
        -- constructor; assumption.
    + exists []. cbn. split; [rewrite app_nil_r; reflexivity|].
      exists [], req, rest. split; [reflexivity|]. split; [constructor|exact Hc].
Qed.

(** X27. The listing has one row per character and item, in order: a character
    with an empty inventory adds no row, while the count still counts it. *)
Theorem listing_skips_empty_inventories (before after : list character.Character)
    (c : character.Character) :
  listing_rows (before ++ c :: after)
    = listing_rows before
      ++ ((λ item, (c, item)) <$> inventory.Items (character.inventory c))
      ++ listing_rows after
  ∧ (inventory.Items (character.inventory c) = [] →
     listing_rows (before ++ c :: after) = listing_rows (before ++ after)
     ∧ listing_count (before ++ c :: after)
       = S (listing_count (before ++ after))).
Proof.
  assert (∀ l1 l2, listing_rows (l1 ++ l2) = listing_rows l1 ++ listing_rows l2)
    as Happ by (intros l1 l2; unfold listing_rows; apply bind_app).
  split.
  - rewrite Happ. reflexivity.
  - intros Hempty. split.
    + rewrite !Happ. f_equal. unfold listing_rows at 1. cbn.
      unfold inventory.GetAllItems, character.GetInventory. rewrite Hempty.
      reflexivity.
    + unfold listing_count. rewrite !length_app. cbn. lia.
Qed.

End game_facts.
